(** * A shallow embedding of [streamlit_scraper.py] (class [EbayScraper])

    The development follows the source file top to bottom: Python strings,
    the float operations the scraper relies on ([float()], [/], [round],
    [repr], [:.2f]), the regular expression [[\d,.]+], then the methods of
    [EbayScraper].  Definitions come first, theorems afterwards. *)

From Stdlib Require Import String Ascii ZArith NArith Bool List Lia.
From Stdlib Require Import SpecFloat.
Import ListNotations.

Set Implicit Arguments.

(** ** Python [str]: a sequence of Unicode code points *)

Module PyStr.

Definition pystr := list N.

(** An ASCII literal of the source, one code point per character. *)
Definition u (s : string) : pystr :=
  map N_of_ascii (list_ascii_of_string s).

Fixpoint eqb (s t : pystr) : bool :=
  match s, t with
  | [], [] => true
  | a :: s', b :: t' => N.eqb a b && eqb s' t'
  | _, _ => false
  end.

(** [s.startswith(p)] *)
Fixpoint startswith (p s : pystr) : bool :=
  match p, s with
  | [], _ => true
  | a :: p', b :: s' => N.eqb a b && startswith p' s'
  | _ :: _, [] => false
  end.

(** [p in s] *)
Fixpoint contains (p s : pystr) : bool :=
  startswith p s ||
  match s with
  | [] => false
  | _ :: s' => contains p s'
  end.

(** [s.endswith(p)] *)
Definition endswith (p s : pystr) : bool :=
  startswith (rev p) (rev s).

(** [s.split(sep)[0]] for a non-empty [sep]: the text before the first
    occurrence of [sep], all of [s] when there is none. *)
Fixpoint split_head (sep s : pystr) : pystr :=
  if startswith sep s then []
  else match s with
       | [] => []
       | c :: s' => c :: split_head sep s'
       end.

(** [s.split(sep, 1)] for a non-empty [sep] that occurs in [s]; [None]
    when [sep] does not occur (the source only unpacks two parts after
    testing [sep in s]). *)
Fixpoint split_once (sep s : pystr) : option (pystr * pystr) :=
  if startswith sep s then Some ([], skipn (length sep) s)
  else match s with
       | [] => None
       | c :: s' =>
           match split_once sep s' with
           | Some (a, b) => Some (c :: a, b)
           | None => None
           end
       end.

(** [s.split(c)] for a one-character separator. *)
Fixpoint split_char (c : N) (s : pystr) : list pystr :=
  match s with
  | [] => [[]]
  | x :: s' =>
      if N.eqb x c then [] :: split_char c s'
      else match split_char c s' with
           | [] => [[x]]
           | p :: ps => (x :: p) :: ps
           end
  end.

(** [sep.join(parts)] *)
Fixpoint join (sep : pystr) (parts : list pystr) : pystr :=
  match parts with
  | [] => []
  | [p] => p
  | p :: ps => p ++ sep ++ join sep ps
  end.

(** [s.replace(old, new)] for a non-empty [old]: occurrences are replaced
    left to right without overlap; [skip] counts the characters of the
    occurrence just replaced that are still to be dropped. *)
Fixpoint replace_from (old new : pystr) (skip : nat) (s : pystr) : pystr :=
  match s with
  | [] => []
  | c :: s' =>
      match skip with
      | S k => replace_from old new k s'
      | O =>
          if startswith old s
          then new ++ replace_from old new (length old - 1) s'
          else c :: replace_from old new 0 s'
      end
  end.

Definition replace (old new s : pystr) : pystr := replace_from old new 0 s.

(** [str.isspace] on one character (Unicode 14, as shipped with CPython
    3.11). *)
Definition whitespace : list N :=
  [9; 10; 11; 12; 13; 28; 29; 30; 31; 32; 133; 160; 5760; 8192; 8193; 8194;
   8195; 8196; 8197; 8198; 8199; 8200; 8201; 8202; 8232; 8233; 8239; 8287;
   12288]%N.

Definition isspace (c : N) : bool := existsb (N.eqb c) whitespace.

Fixpoint lstrip (s : pystr) : pystr :=
  match s with
  | c :: s' => if isspace c then lstrip s' else s
  | [] => []
  end.

(** [s.strip()] *)
Definition strip (s : pystr) : pystr := rev (lstrip (rev (lstrip s))).

(** Truth value of a string: [if s:]. *)
Definition truthy (s : pystr) : bool :=
  match s with [] => false | _ :: _ => true end.

(** Decimal digits of a natural number, most significant first, as
    characters. *)
Fixpoint digits_fuel (fuel : nat) (n : N) (acc : pystr) : pystr :=
  match fuel with
  | O => acc
  | S f =>
      let acc' := (48 + n mod 10)%N :: acc in
      if N.eqb (n / 10) 0 then acc' else digits_fuel f (n / 10)%N acc'
  end.

Definition digits (n : N) : pystr :=
  digits_fuel (S (N.to_nat (N.log2 n))) n [].

(** [str(i)] for an [int]. *)
Definition str_of_int (i : Z) : pystr :=
  match i with
  | Zneg p => 45%N :: digits (Npos p)
  | _ => digits (Z.to_N i)
  end.

(** Zeros of the blocks of Unicode decimal digits (general category Nd,
    Unicode 14): each block is ten consecutive code points with values
    0..9.  Both [\d] of [re] and [float()] use this property. *)
Definition decimal_zeros : list N :=
  [0x30; 0x660; 0x6f0; 0x7c0; 0x966; 0x9e6; 0xa66; 0xae6; 0xb66; 0xbe6;
   0xc66; 0xce6; 0xd66; 0xde6; 0xe50; 0xed0; 0xf20; 0x1040; 0x1090; 0x17e0;
   0x1810; 0x1946; 0x19d0; 0x1a80; 0x1a90; 0x1b50; 0x1bb0; 0x1c40; 0x1c50;
   0xa620; 0xa8d0; 0xa900; 0xa9d0; 0xa9f0; 0xaa50; 0xabf0; 0xff10; 0x104a0;
   0x10d30; 0x11066; 0x110f0; 0x11136; 0x111d0; 0x112f0; 0x11450; 0x114d0;
   0x11650; 0x116c0; 0x11730; 0x118e0; 0x11950; 0x11c50; 0x11d50; 0x11da0;
   0x16a60; 0x16ac0; 0x16b50; 0x1d7ce; 0x1d7d8; 0x1d7e2; 0x1d7ec; 0x1d7f6;
   0x1e140; 0x1e2f0; 0x1e950; 0x1fbf0]%N.

(** [unicodedata.decimal(c, None)] *)
Definition to_decimal (c : N) : option N :=
  match find (fun z => N.leb z c && N.ltb c (z + 10)) decimal_zeros with
  | Some z => Some (c - z)%N
  | None => None
  end.

Definition isdecimal (c : N) : bool :=
  match to_decimal c with Some _ => true | None => false end.

End PyStr.

Export PyStr.

(** ** Python [float]: IEEE 754 binary64

    A [float] is a [spec_float] of the Standard Library with precision 53
    and maximal exponent 1024; sums, products and quotients are the
    library's correctly rounded operations.  The conversions between
    decimal text and floats are CPython's, which are correctly rounded in
    both directions. *)

Module PyFloat.

Open Scope Z_scope.

Definition float := spec_float.

Definition prec := 53.
Definition emax := 1024.

Definition fadd : float -> float -> float := SFadd prec emax.
Definition fmul : float -> float -> float := SFmul prec emax.

(** [x / y] for a non-zero [y] (a zero divisor raises
    [ZeroDivisionError]; every divisor of the source is a non-zero
    constant). *)
Definition fdiv : float -> float -> float := SFdiv prec emax.

Definition float_eqb (x y : float) : bool :=
  match x, y with
  | S754_zero a, S754_zero b => Bool.eqb a b
  | S754_infinity a, S754_infinity b => Bool.eqb a b
  | S754_nan, S754_nan => true
  | S754_finite a m e, S754_finite b n f =>
      Bool.eqb a b && Pos.eqb m n && Z.eqb e f
  | _, _ => false
  end.

(** The float nearest to [(-1)^neg * D * 10^p] (ties to even), that is
    the result of reading the decimal numeral with digits [D] and exponent
    [p]. *)
Definition of_decimal (neg : bool) (D : Z) (p : Z) : float :=
  match D with
  | Z0 => S754_zero neg
  | Zpos d =>
      if 0 <=? p
      then binary_round prec emax neg (Z.to_pos (Zpos d * 10 ^ p)) 0
      else SFdiv prec emax (S754_finite neg d 0)
                 (S754_finite false (Z.to_pos (10 ^ (- p))) 0)
  | Zneg _ => S754_nan
  end.

(** [float(i)] for an [int] within range. *)
Definition of_int (i : Z) : float := binary_normalize prec emax i 0 false.

(** Value of a digit string, most significant digit first; [None] when a
    character is not a decimal digit. *)
Fixpoint digits_value (acc : Z) (s : pystr) : option Z :=
  match s with
  | [] => Some acc
  | c :: s' =>
      match to_decimal c with
      | Some d => digits_value (10 * acc + Z.of_N d) s'
      | None => None
      end
  end.

(** [float(s)] for the strings the scraper passes to it, which consist of
    decimal digits and full stops only: a numeral is accepted when it has
    at most one full stop and at least one digit; [None] is [ValueError].
    (Signs, exponents, blanks and underscores never reach this call.) *)
Definition float_of_str (s : pystr) : option float :=
  let ip := split_head [46%N] s in
  let fp := skipn (S (List.length ip)) s in
  match ip ++ fp with
  | [] => None
  | _ :: _ =>
      match digits_value 0 (ip ++ fp) with
      | Some D => Some (of_decimal false D (- Z.of_nat (List.length fp)))
      | None => None
      end
  end.

(** A float literal of the source. *)
Definition lit (s : string) : float :=
  match float_of_str (u s) with
  | Some x => x
  | None => S754_nan
  end.

(** The integer nearest to [m * 2^e * 10^nd], ties to the even one: the
    digits that CPython's decimal conversion produces for [nd] places. *)
Definition round_half_even_scaled (m : positive) (e : Z) (nd : Z) : Z :=
  let num := Zpos m * 10 ^ nd in
  if 0 <=? e then num * 2 ^ e
  else
    let den := 2 ^ (- e) in
    let q := num / den in
    let r := num mod den in
    match Z.compare (2 * r) den with
    | Lt => q
    | Gt => q + 1
    | Eq => if Z.even q then q else q + 1
    end.

(** [round(x, nd)] for a float [x] and a small [nd >= 0]: infinities and
    NaN round to themselves; a finite [x] is converted to the decimal
    numeral with [nd] places nearest to its exact value and that numeral
    is read back. *)
Definition py_round (x : float) (nd : Z) : float :=
  match x with
  | S754_finite s m e =>
      of_decimal s (round_half_even_scaled m e nd) (- nd)
  | _ => x
  end.

(** Exact value of a positive finite float as a fraction. *)
Definition frac_of (m : positive) (e : Z) : Z * Z :=
  if 0 <=? e then (Zpos m * 2 ^ e, 1) else (Zpos m, 2 ^ (- e)).

(** [(num / den) / 10^k] as a fraction. *)
Definition scale10 (num den k : Z) : Z * Z :=
  if 0 <=? k then (num, den * 10 ^ k) else (num * 10 ^ (- k), den).

Definition ndigits10 (n : Z) : Z := Z.of_nat (List.length (digits (Z.to_N n))).

(** [floor (log10 (num / den))] for positive [num] and [den]. *)
Definition floor_log10 (num den : Z) : Z :=
  let k := ndigits10 num - ndigits10 den in
  let '(a, b) := scale10 num den k in
  if b <=? a then k else k - 1.

(** The [n]-digit decimal numerals next to [m * 2^e] that read back as
    that float; when both neighbours do, the nearer one (the even one on
    a tie). *)
Definition candidate (m : positive) (e : Z) (k n : Z) : option (Z * Z) :=
  let '(num, den) := frac_of m e in
  let p := k - n + 1 in
  let '(a, b) := scale10 num den p in
  let lo := a / b in
  let r := a mod b in
  let x := S754_finite false m e in
  let ok D := float_eqb (of_decimal false D p) x in
  match ok lo, ok (lo + 1) with
  | true, false => Some (lo, p)
  | false, true => Some (lo + 1, p)
  | true, true =>
      match Z.compare (2 * r) b with
      | Lt => Some (lo, p)
      | Gt => Some (lo + 1, p)
      | Eq => Some (if Z.even lo then lo else lo + 1, p)
      end
  | false, false => None
  end.

(** The shortest decimal numeral that reads back as [m * 2^e], trying
    1, 2, ... significant digits; 17 always suffice for binary64. *)
Fixpoint shortest (fuel : nat) (m : positive) (e : Z) (k n : Z) : Z * Z :=
  match fuel with
  | O => (round_half_even_scaled m e (n - 1 - k), k - n + 1)
  | S f =>
      match candidate m e k n with
      | Some r => r
      | None => shortest f m e k (n + 1)
      end
  end.

(** Drop the trailing zeros of a numeral [D * 10^p]. *)
Fixpoint strip_zeros (fuel : nat) (D p : Z) : Z * Z :=
  match fuel with
  | O => (D, p)
  | S f =>
      if (D mod 10 =? 0) && negb (D =? 0)
      then strip_zeros f (D / 10) (p + 1)
      else (D, p)
  end.

Definition zeros (n : Z) : pystr := repeat 48%N (Z.to_nat n).

(** Layout of [repr]: digits [ds] with the decimal point after the first
    [decpt] of them; exponent notation when [decpt <= -4] or
    [decpt > 16]. *)
Definition layout_repr (ds : pystr) (decpt : Z) : pystr :=
  let n := Z.of_nat (List.length ds) in
  if (decpt <=? -4) || (16 <? decpt) then
    let ex := decpt - 1 in
    let mant :=
      match ds with
      | [] => []
      | d :: [] => [d]
      | d :: rest => d :: 46%N :: rest
      end in
    let exd := digits (Z.to_N (Z.abs ex)) in
    let exd := if Z.abs ex <? 10 then 48%N :: exd else exd in
    mant ++ [101%N; if ex <? 0 then 45%N else 43%N] ++ exd
  else if decpt <=? 0 then
    u "0." ++ zeros (- decpt) ++ ds
  else if n <=? decpt then
    ds ++ zeros (decpt - n) ++ u ".0"
  else
    firstn (Z.to_nat decpt) ds ++ 46%N :: skipn (Z.to_nat decpt) ds.

Definition sign_str (s : bool) : pystr := if s then [45%N] else [].

(** [repr(x)], which is also [str(x)] and what an f-string inserts for a
    float. *)
Definition repr (x : float) : pystr :=
  match x with
  | S754_nan => u "nan"
  | S754_infinity s => sign_str s ++ u "inf"
  | S754_zero s => sign_str s ++ u "0.0"
  | S754_finite s m e =>
      let '(num, den) := frac_of m e in
      let k := floor_log10 num den in
      let '(D0, p0) := shortest 17 m e k 1 in
      let '(D, p) := strip_zeros 400 D0 p0 in
      let ds := digits (Z.to_N D) in
      sign_str s ++ layout_repr ds (Z.of_nat (List.length ds) + p)
  end.

(** [format(x, ".<nd>f")]: fixed notation with [nd >= 1] places. *)
Definition format_fixed (nd : Z) (x : float) : pystr :=
  match x with
  | S754_nan => u "nan"
  | S754_infinity s => sign_str s ++ u "inf"
  | S754_zero s => sign_str s ++ u "0." ++ zeros nd
  | S754_finite s m e =>
      let n := round_half_even_scaled m e nd in
      let fr := digits (Z.to_N (n mod 10 ^ nd)) in
      sign_str s ++ digits (Z.to_N (n / 10 ^ nd)) ++ 46%N ::
        zeros (nd - Z.of_nat (List.length fr)) ++ fr
  end.

End PyFloat.

Export PyFloat.

(** ** [re.search(r'[\d,.]+', s)] *)

Module Re.

(** The character class [[\d,.]]: a Unicode decimal digit, a comma or a
    full stop. *)
Definition in_class (c : N) : bool :=
  isdecimal c || N.eqb c 44 || N.eqb c 46.

Fixpoint take_while (f : N -> bool) (s : pystr) : pystr :=
  match s with
  | c :: s' => if f c then c :: take_while f s' else []
  | [] => []
  end.

(** [numeric_match.group(0)] of the leftmost match, which is greedy;
    [None] when nothing matches. *)
Fixpoint search_numeric (s : pystr) : option pystr :=
  match s with
  | [] => None
  | c :: s' => if in_class c then Some (take_while in_class s)
               else search_numeric s'
  end.

End Re.

Export Re.

(** ** The environment of a scraper

    What the scraper reads from outside: the responses of the HTTP
    session, the wall clock, the random generator, the HTML parser and
    [urljoin].  Each reading of a changing source takes the next element
    of a sequence.  A request returns a response or raises a
    [RequestException], the parser returns a parsed page, and [urljoin]
    returns a URL or raises [ValueError], as it does on a target such as
    "//[". *)

(** A tag of the parsed page: its text and its attributes. *)
Record Tag := {
  text : pystr;
  attrs : list (pystr * pystr)
}.

(** [name in tag.attrs] and [tag[name]] *)
Definition attr (name : pystr) (t : Tag) : option pystr :=
  match find (fun kv => PyStr.eqb (fst kv) name) (attrs t) with
  | Some kv => Some (snd kv)
  | None => None
  end.

(** One [li.s-item] container, seen through the selectors the extractor
    applies to it. *)
Record Container := {
  title_elem : option Tag;            (* select_one(".s-item__title") *)
  price_elem : option Tag;            (* select_one(".s-item__price") *)
  link_elem : option Tag;             (* select_one("a.s-item__link") *)
  image_elem : option Tag;            (* select_one(".s-item__image-img") *)
  picture_elem : option (option Tag); (* select_one("picture.s-item__image-img")
                                         and its select_one("img") *)
  all_imgs : list Tag                 (* select("img") *)
}.

(** A parsed page, seen through the selectors applied to it. *)
Record Soup := {
  s_items : list Container;           (* select("li.s-item") *)
  pagination_items : list Tag;        (* select(".pagination__items") *)
  pagination_next : option Tag        (* select_one(".pagination__next") *)
}.

(** Outcome of [session.get] followed by [raise_for_status]: the text of
    the response, or the message of a [RequestException]. *)
Inductive Response :=
| Fetched (body : pystr)
| RequestException (e : pystr).

(** Outcome of a call that can raise: the value returned, or the
    message of the exception. *)
Inductive Outcome (A : Type) :=
| Returned (a : A)
| Raised (e : pystr).

Arguments Returned {A} a.
Arguments Raised {A} e.

Record World := {
  http_get : nat -> pystr -> Response;  (* the n-th request, by URL *)
  now : nat -> pystr;                   (* strftime("%H:%M:%S") of the n-th reading *)
  random : nat -> float;                (* the n-th random.random() *)
  stop_requested : nat -> bool;         (* is_running cleared from outside
                                           by the time of the n-th clock
                                           reading *)
  BeautifulSoup : pystr -> Soup;
  urljoin : pystr -> pystr -> Outcome pystr
}.

(** ** class [EbayScraper] *)

Module EbayScraper.

(** The symbols of the table that are not ASCII, character by character
    as the source file spells them (pound, euro, yen, won, rupee). *)
Definition GBP : pystr := [0xc2; 0xa3]%N.
Definition EUR : pystr := [0xe2; 0x201a; 0xac]%N.
Definition JPY : pystr := [0xc2; 0xa5]%N.
Definition KRW : pystr := [0xe2; 0x201a; 0xa9]%N.
Definition INR : pystr := [0xe2; 0x201a; 0xb9]%N.

(** The exchange rates, in the order of the dictionary literal, which
    is the order [.items()] and [.keys()] iterate in. *)
Definition EXCHANGE_RATES : list (pystr * float) :=
  [ (u "NT$", lit "32.906");
    (u "HK$", lit "7.8");
    (GBP, lit "0.77");
    (EUR, lit "0.91");
    (u "C$", lit "1.35");
    (u "A$", lit "1.5");
    (JPY, lit "149.0");
    (KRW, lit "1350.0");
    (INR, lit "83.0") ].

Definition US_prefix : pystr := u "US $".

(** One iteration of the loop of [convert_to_usd] on an entry whose
    symbol occurs in [price_str]: [Some] is the value returned from
    inside the loop, [None] means the loop goes on (no numeric match, or
    [ValueError] caught and reported with [st.error]). *)
Definition convert_with (currency_symbol : pystr) (rate : float)
    (price_str : pystr) : option pystr :=
  match search_numeric price_str with
  | Some amount_str =>
      match float_of_str (replace [44%N] [] amount_str) with
      | Some amount =>
          let usd_amount :=
            if PyStr.eqb currency_symbol GBP || PyStr.eqb currency_symbol EUR
            then py_round (fdiv amount rate) 1
            else py_round (fdiv amount rate) 1 in
          Some (US_prefix ++ repr usd_amount)
      | None => None
      end
  | None => None
  end.

Fixpoint convert_loop (items : list (pystr * float)) (price_str : pystr)
  : option pystr :=
  match items with
  | [] => None
  | (currency_symbol, rate) :: rest =>
      if contains currency_symbol price_str then
        match convert_with currency_symbol rate price_str with
        | Some r => Some r
        | None => convert_loop rest price_str
        end
      else convert_loop rest price_str
  end.

(** [EbayScraper.convert_to_usd] *)
Definition convert_to_usd (price_str : pystr) : pystr :=
  match convert_loop EXCHANGE_RATES price_str with
  | Some r => r
  | None => price_str
  end.

(** One extracted listing, the dictionary appended to [products_data]. *)
Record Product := {
  title : pystr;
  price : pystr;
  product_url : pystr;
  image_url : option pystr
}.

(** The fields of the instance that the methods read and write; the
    headers and the session with its cookies are constant and live in the
    environment. *)
Record Scraper := {
  base_url : pystr;
  products : list Product;
  status_updates : list pystr;
  is_running : bool;
  progress : Z
}.

Definition currency_params : pystr := u "_ccy=1&_fmt=US&_dmd=1".

(** [EbayScraper.__init__] *)
Definition init (url : pystr) : Scraper :=
  let url' :=
    if contains (u "?") url
    then url ++ u "&" ++ currency_params
    else url ++ u "?" ++ currency_params in
  {| base_url := url'; products := []; status_updates := [];
     is_running := false; progress := 0 |}.

(** The state threaded through the methods: the instance and how many
    readings of each outside source have been taken. *)
Record Sys := {
  self : Scraper;
  clock_ix : nat;
  request_ix : nat;
  random_ix : nat
}.

(** A method body: a state transformer that also returns a value. *)
Definition M (A : Type) : Type := Sys -> A * Sys.

Definition ret {A} (a : A) : M A := fun s => (a, s).

Definition bind {A B} (c : M A) (k : A -> M B) : M B :=
  fun s => let '(a, s') := c s in k a s'.

Notation "x <- c ;; k" := (bind c (fun x => k))
  (at level 61, c at next level, right associativity).
Notation "c ;;; k" := (bind c (fun _ => k))
  (at level 61, right associativity).

(** Assignment to fields of [self], and reading [self]. *)
Definition update_self (f : Scraper -> Scraper) : M unit :=
  fun s => (tt, {| self := f (self s); clock_ix := clock_ix s;
                   request_ix := request_ix s; random_ix := random_ix s |}).

Definition get_self : M Scraper := fun s => (self s, s).

Definition set_products (ps : list Product) (x : Scraper) : Scraper :=
  {| base_url := base_url x; products := ps;
     status_updates := status_updates x; is_running := is_running x;
     progress := progress x |}.

Definition set_status_updates (l : list pystr) (x : Scraper) : Scraper :=
  {| base_url := base_url x; products := products x;
     status_updates := l; is_running := is_running x;
     progress := progress x |}.

Definition set_is_running (b : bool) (x : Scraper) : Scraper :=
  {| base_url := base_url x; products := products x;
     status_updates := status_updates x; is_running := b;
     progress := progress x |}.

Definition set_progress (p : Z) (x : Scraper) : Scraper :=
  {| base_url := base_url x; products := products x;
     status_updates := status_updates x; is_running := is_running x;
     progress := p |}.

Section Methods.

Variable w : World.

(** [datetime.datetime.now().strftime("%H:%M:%S")] *)
Definition read_clock : M pystr :=
  fun s => (now w (clock_ix s),
            {| self := self s; clock_ix := S (clock_ix s);
               request_ix := request_ix s; random_ix := random_ix s |}).

(** [session.get(url, headers=...)] and [raise_for_status()] *)
Definition request (url : pystr) : M Response :=
  fun s => (http_get w (request_ix s) url,
            {| self := self s; clock_ix := clock_ix s;
               request_ix := S (request_ix s); random_ix := random_ix s |}).

(** [random.uniform(a, b)], that is [a + (b - a) * random()] *)
Definition uniform (a b : float) : M float :=
  fun s => (fadd a (fmul (SFsub prec emax b a) (random w (random_ix s))),
            {| self := self s; clock_ix := clock_ix s;
               request_ix := request_ix s; random_ix := S (random_ix s) |}).

(** [EbayScraper.add_status_update] *)
Definition add_status_update (message : pystr) : M unit :=
  timestamp <- read_clock ;;
  update_self (fun x =>
    set_status_updates
      (status_updates x ++ [u "[" ++ timestamp ++ u "] " ++ message]) x).

Definition max_retries : Z := 3.

(** The [for attempt in range(max_retries)] loop of [get_page], from
    [attempt] on with [n] iterations left.  [None] is the [None] that
    the method returns after the last failure. *)
Fixpoint get_page_from (n : nat) (attempt : Z) (url : pystr)
  : M (option pystr) :=
  match n with
  | O => ret None
  | S n' =>
      r <- request url ;;
      match r with
      | Fetched body => ret (Some body)
      | RequestException e =>
          add_status_update (u "Error fetching " ++ url ++ u ": " ++ e) ;;;
          if (attempt <? max_retries - 1)%Z then
            j <- uniform (of_int 0) (of_int 1) ;;
            let wait_time := fadd (of_int (2 ^ attempt)) j in
            add_status_update
              (u "Retrying in " ++ format_fixed 2 wait_time ++ u " seconds...") ;;;
            get_page_from n' (attempt + 1)%Z url
          else
            add_status_update (u "Max retries reached. Moving on.") ;;;
            ret None
      end
  end.

(** [EbayScraper.get_page] *)
Definition get_page (url : pystr) : M (option pystr) :=
  get_page_from (Z.to_nat max_retries) 0%Z url.

(** The "Enhanced NT$ detection" of the price block. *)
Definition normalize_nt (price : pystr) : pystr :=
  if negb (contains (u "NT$") price)
     && (contains (u "NT $") price || contains (u "nt$") price
         || contains (u "NT") price)
  then
    let price := replace (u "nt$") (u "NT$") (replace (u "NT $") (u "NT$") price) in
    if contains (u "NT") price && contains (u "$") price
       && negb (contains (u "NT$") price)
    then replace (u "NT$$") (u "NT$") (replace (u "NT") (u "NT$") price)
    else price
  else price.

(** The branch for a price that is already in US dollars: the first
    numeric run is rounded to one decimal when it parses and kept as text
    when it does not ([ValueError] is passed over); without a numeric run
    the price is left as it is. *)
Definition standardize_usd (price : pystr) : pystr :=
  match search_numeric price with
  | Some price_value =>
      match float_of_str (replace [44%N] [] price_value) with
      | Some price_float => US_prefix ++ repr (py_round price_float 1)
      | None => US_prefix ++ price_value
      end
  | None => price
  end.

Definition has_currency (price : pystr) : bool :=
  existsb (fun kv => contains (fst kv) price) EXCHANGE_RATES.

Definition arrow : pystr := [0xe2; 0x2020; 0x2019]%N.

(** The price block of [parse_product_listings] (from [price = "No
    Price"] to the end of the currency handling). *)
Definition extract_price (price_elem : option Tag) : M pystr :=
  match price_elem with
  | None => ret (u "No Price")
  | Some elem =>
      let price := strip (text elem) in
      let price :=
        if contains (u " to ") price then split_head (u " to ") price
        else price in
      let price :=
        if contains (u "/") price then split_head (u "/") price else price in
      let price := normalize_nt price in
      if contains US_prefix price || startswith (u "$") price then
        ret (standardize_usd price)
      else if has_currency price then
        let old_price := price in
        let price := convert_to_usd price in
        add_status_update
          (u "Converted currency: " ++ old_price ++ u " " ++ arrow ++ u " "
             ++ price) ;;;
        ret price
      else if contains (u "$") price && negb (contains US_prefix price) then
        ret (u "US " ++ price)
      else ret price
  end.

(** [not image_url] *)
Definition no_image (image_url : option pystr) : bool :=
  match image_url with
  | None => true
  | Some v => negb (truthy v)
  end.

Definition image_from_elem (image_elem : option Tag) : option pystr :=
  match image_elem with
  | Some t =>
      match attr (u "data-src") t with
      | Some v => Some v
      | None =>
          match attr (u "src") t with
          | Some v => if negb (endswith (u "gif") v) then Some v else None
          | None => None
          end
      end
  | None => None
  end.

Definition image_from_picture (picture : option (option Tag))
    (image_url : option pystr) : option pystr :=
  if no_image image_url then
    match picture with
    | Some (Some img_in_picture) =>
        match attr (u "src") img_in_picture with
        | Some v => Some v
        | None => image_url
        end
    | _ => image_url
    end
  else image_url.

Fixpoint first_https_img (imgs : list Tag) : option pystr :=
  match imgs with
  | [] => None
  | img :: rest =>
      match attr (u "src") img with
      | Some v =>
          if negb (endswith (u "gif") v) && contains (u "https://") v
          then Some v else first_https_img rest
      | None => first_https_img rest
      end
  end.

Definition image_from_scan (imgs : list Tag) (image_url : option pystr)
  : option pystr :=
  if no_image image_url then
    match first_https_img imgs with
    | Some v => Some v
    | None => image_url
    end
  else image_url.

(** The body of the [for container in product_containers] loop: the
    product appended to [products_data], or [None] when the container is
    passed over.  No step of the body can raise in this model, so the
    [except Exception] handler is never entered. *)
Definition extract_item (c : Container) : M (option Product) :=
  if match title_elem c with
     | Some t => contains (u "Shop on eBay") (text t)
     | None => false
     end
  then ret None
  else
    let title :=
      match title_elem c with
      | Some t => strip (text t)
      | None => u "No Title"
      end in
    price <- extract_price (price_elem c) ;;
    let product_url :=
      match link_elem c with
      | Some l => attr (u "href") l
      | None => None
      end in
    let image_url :=
      image_from_scan (all_imgs c)
        (image_from_picture (picture_elem c)
           (image_from_elem (image_elem c))) in
    match product_url with
    | Some url =>
        if truthy url
        then ret (Some {| title := title; price := price;
                          product_url := url; image_url := image_url |})
        else ret None
    | None => ret None
    end.

Fixpoint parse_containers (cs : list Container) (products_data : list Product)
  : M (list Product) :=
  match cs with
  | [] => ret products_data
  | c :: rest =>
      r <- extract_item c ;;
      parse_containers rest
        (match r with
         | Some p => products_data ++ [p]
         | None => products_data
         end)
  end.

(** [if x:] for a value that is a string or [None]. *)
Definition truthy_opt (x : option pystr) : bool :=
  match x with
  | Some s => truthy s
  | None => false
  end.

(** [EbayScraper.parse_product_listings] *)
Definition parse_product_listings (html_content : option pystr)
  : M (list Product) :=
  match html_content with
  | Some h =>
      if truthy h then parse_containers (s_items (BeautifulSoup w h)) []
      else ret []
  | None => ret []
  end.

(** The pagination control of the page: the target of the "next" button
    joined to the base URL, when the page has one.  [Returned None] when
    the method goes on to the alternative approach; [Raised] when
    [urljoin] raises. *)
Definition next_from_pagination (base : pystr) (soup : Soup)
  : Outcome (option pystr) :=
  match pagination_items soup with
  | [] => Returned None
  | _ :: _ =>
      match pagination_next soup with
      | Some next_button =>
          match attr (u "href") next_button with
          | Some href =>
              match urljoin w base href with
              | Returned url => Returned (Some url)
              | Raised e => Raised e
              end
          | None => Returned None
          end
      | None => Returned None
      end
  end.

(** The "alternative approach" of [get_next_page_url]: the next page
    URL built from the query string of the base URL. *)
Definition next_from_query (base : pystr) (current_page_number : Z)
  : option pystr :=
  if contains (u "?") base then
    match split_once (u "?") base with
    | Some (base_part, query_part) =>
        let next := u "_pgn=" ++ str_of_int (current_page_number + 1) in
        if contains (u "_pgn=") query_part then
          let new_query :=
            map (fun param =>
                   if contains (u "_pgn=") param then next else param)
                (split_char 38%N query_part) in
          Some (base_part ++ u "?" ++ join (u "&") new_query)
        else
          Some (base ++ u "&" ++ next)
    | None => None
    end
  else None.

(** [EbayScraper.get_next_page_url]: the value returned, or the
    exception that leaves the method. *)
Definition get_next_page_url (x : Scraper) (html_content : option pystr)
    (current_page_number : Z) : Outcome (option pystr) :=
  match html_content with
  | Some h =>
      if truthy h then
        match next_from_pagination (base_url x) (BeautifulSoup w h) with
        | Returned (Some url) => Returned (Some url)
        | Returned None =>
            Returned (next_from_query (base_url x) current_page_number)
        | Raised e => Raised e
        end
      else Returned None
  | None => Returned None
  end.

(** Where the [while] loop of [scrape] was left. *)
Inductive LoopExit :=
| ConditionFalse   (* no current URL, or is_running is false *)
| NoProducts       (* break after "No products found" *)
| MaxPagesReached  (* break after "Reached maximum number of pages" *)
| FetchFailed      (* break after "Failed to fetch page content" *)
| ExceptionRaised (e : pystr).
                   (* an exception left the loop, on its way to the
                      handler of [scrape] *)

(** [if max_pages:] for an [int] or [None]. *)
Definition max_pages_set (max_pages : option Z) : bool :=
  match max_pages with
  | Some n => negb (n =? 0)%Z
  | None => false
  end.

(** Reading [self.is_running], after whatever an outside party did to
    it. *)
Definition read_is_running : M bool :=
  fun s =>
    if stop_requested w (clock_ix s)
    then (false, snd (update_self (set_is_running false) s))
    else (is_running (self s), s).

Definition page_label (page_number : Z) : pystr := str_of_int page_number.

Definition len {A} (l : list A) : pystr := str_of_int (Z.of_nat (List.length l)).

(** The [while current_url and self.is_running] loop of [scrape], run
    for at most [fuel] iterations; [None] when the loop is still running
    after [fuel] iterations.  The widgets [progress_bar] and
    [status_area] are the front end's and take their default [None]. *)
Fixpoint scrape_loop (fuel : nat) (max_pages : option Z)
    (current_url : option pystr) (page_number : Z) : M (option LoopExit) :=
  match fuel with
  | O => ret None
  | S fuel' =>
      running <- read_is_running ;;
      if truthy_opt current_url && running then
        add_status_update
          (u "Scraping page " ++ page_label page_number ++ u "...") ;;;
        html_content <-
          get_page (match current_url with Some url => url | None => [] end) ;;
        if truthy_opt html_content then
          page_products <- parse_product_listings html_content ;;
          match page_products with
          | [] =>
              add_status_update
                (u "No products found on page " ++ page_label page_number
                   ++ u ". Stopping.") ;;;
              ret (Some NoProducts)
          | _ :: _ =>
              update_self (fun x =>
                set_products (products x ++ page_products) x) ;;;
              x <- get_self ;;
              add_status_update
                (u "Found " ++ len page_products ++ u " products on page "
                   ++ page_label page_number ++ u ". Total: "
                   ++ len (products x)) ;;;
              delay <- uniform (lit "1.5") (lit "3.5") ;;
              add_status_update
                (u "Waiting " ++ format_fixed 2 delay
                   ++ u " seconds before next request...") ;;;
              if max_pages_set max_pages
                 && (match max_pages with
                     | Some n => (n <=? page_number)%Z
                     | None => false
                     end)
              then
                add_status_update
                  (u "Reached maximum number of pages ("
                     ++ match max_pages with
                        | Some n => str_of_int n
                        | None => []
                        end
                     ++ u "). Stopping.") ;;;
                ret (Some MaxPagesReached)
              else
                x <- get_self ;;
                match get_next_page_url x html_content page_number with
                | Returned current_url =>
                    scrape_loop fuel' max_pages current_url
                      (page_number + 1)%Z
                | Raised e => ret (Some (ExceptionRaised e))
                end
          end
        else
          add_status_update (u "Failed to fetch page content. Stopping.") ;;;
          ret (Some FetchFailed)
      else ret (Some ConditionFalse)
  end.

(** [EbayScraper.scrape], with the widgets left at [None].  The result
    is [None] when the loop needs more than [fuel] iterations, and
    otherwise what the method returns: [Some ps] for the list of
    products, [None] for the [None] it returns after its [except
    Exception] handler.  The [finally] clause runs on both ways out. *)
Definition scrape (fuel : nat) (max_pages : option Z)
  : M (option (option (list Product))) :=
  update_self (fun x =>
    set_status_updates []
      (set_products [] (set_progress 0 (set_is_running true x)))) ;;;
  x <- get_self ;;
  add_status_update (u "Starting scrape for: " ++ base_url x) ;;;
  add_status_update
    (u "Maximum pages to scrape: "
       ++ match max_pages with
          | Some n => if (n =? 0)%Z then u "All" else str_of_int n
          | None => u "All"
          end) ;;;
  r <- scrape_loop fuel max_pages (Some (base_url x)) 1%Z ;;
  match r with
  | None => ret None
  | Some (ExceptionRaised e) =>
      add_status_update (u "Error during scraping: " ++ e) ;;;
      update_self (set_is_running false) ;;;
      ret (Some None)
  | Some _ =>
      x <- get_self ;;
      add_status_update
        (u "Scraping complete. Total products collected: "
           ++ len (products x)) ;;;
      running <- read_is_running ;;
      (if running then ret tt
       else add_status_update (u "Scrape was stopped manually.")) ;;;
      x <- get_self ;;
      update_self (set_is_running false) ;;;
      ret (Some (Some (products x)))
  end.

End Methods.

End EbayScraper.

(** ** Definitions that follow the specification's wording

    They are compared below with the definitions taken from the source. *)

Module Spec.

Import EbayScraper.

Open Scope Z_scope.

(** The first entry of the table, in its order, whose symbol occurs in
    the price text. *)
Definition first_symbol (price_str : pystr) : option (pystr * float) :=
  find (fun kv => contains (fst kv) price_str) EXCHANGE_RATES.

(** The first numeric run of the price text, commas removed, read as a
    float; [None] when there is no run or it does not parse. *)
Definition parsed_amount (price_str : pystr) : option float :=
  match search_numeric price_str with
  | Some amount_str => float_of_str (replace [44%N] [] amount_str)
  | None => None
  end.

(** [toCanonical] as section 4.4 words it, for a given rounding to a
    number of decimal places: on the first symbol match the first numeric
    run is parsed, divided by the symbol's rate, rounded to one decimal
    and prefixed; otherwise the text is returned unchanged. *)
Definition to_canonical (rounding : float -> Z -> float) (price_str : pystr)
  : pystr :=
  match first_symbol price_str, parsed_amount price_str with
  | Some (_, rate), Some amount =>
      US_prefix ++ repr (rounding (fdiv amount rate) 1)
  | _, _ => price_str
  end.

(** Rounding half up to [nd] places: the integer [floor (v * 10^nd + 1/2)]
    for the exact value [v = m * 2^e], read back as a float. *)
Definition round_half_up_scaled (m : positive) (e : Z) (nd : Z) : Z :=
  let num := Zpos m * 10 ^ nd in
  if 0 <=? e then num * 2 ^ e
  else let den := 2 ^ (- e) in (2 * num + den) / (2 * den).

Definition round_half_up (x : float) (nd : Z) : float :=
  match x with
  | S754_finite s m e => of_decimal s (round_half_up_scaled m e nd) (- nd)
  | _ => x
  end.

(** [convert_to_usd] with one division for every matched symbol, without
    the case distinction on the pound and the euro. *)
Definition convert_with_uniform (rate : float) (price_str : pystr)
  : option pystr :=
  match search_numeric price_str with
  | Some amount_str =>
      match float_of_str (replace [44%N] [] amount_str) with
      | Some amount => Some (US_prefix ++ repr (py_round (fdiv amount rate) 1))
      | None => None
      end
  | None => None
  end.

Fixpoint convert_loop_uniform (items : list (pystr * float))
    (price_str : pystr) : option pystr :=
  match items with
  | [] => None
  | (currency_symbol, rate) :: rest =>
      if contains currency_symbol price_str then
        match convert_with_uniform rate price_str with
        | Some r => Some r
        | None => convert_loop_uniform rest price_str
        end
      else convert_loop_uniform rest price_str
  end.

Definition convert_to_usd_uniform (price_str : pystr) : pystr :=
  match convert_loop_uniform EXCHANGE_RATES price_str with
  | Some r => r
  | None => price_str
  end.

(** A query parameter with the page number it carries raised by one;
    every other parameter is left alone. *)
Definition increment_page_param (param : pystr) : pystr :=
  if startswith (u "_pgn=") param then
    match digits_value 0 (skipn 5 param) with
    | Some v => u "_pgn=" ++ str_of_int (v + 1)
    | None => param
    end
  else param.

(** The base URL with its page-number parameter incremented by one, all
    other parameters and their order preserved (section 4.2, step 2). *)
Definition incremented_url (base : pystr) : option pystr :=
  match split_once (u "?") base with
  | Some (base_part, query_part) =>
      Some (base_part ++ u "?"
              ++ join (u "&")
                   (map increment_page_param (split_char 38%N query_part)))
  | None => None
  end.

(** The page-number parameter set to the page after [current]. *)
Definition set_page_param (current : Z) (param : pystr) : pystr :=
  if startswith (u "_pgn=") param
  then u "_pgn=" ++ str_of_int (current + 1)
  else param.

(** Kinds of status entries written while fetching. *)
Definition is_error_entry (entry : pystr) : bool :=
  contains (u "Error fetching ") entry.

Definition is_retry_entry (entry : pystr) : bool :=
  contains (u "Retrying in ") entry.

Definition is_max_retries_entry (entry : pystr) : bool :=
  contains (u "Max retries reached. Moving on.") entry.

Definition is_no_products_entry (entry : pystr) : bool :=
  contains (u "No products found on page ") entry.

(** The container is the site's filler item. *)
Definition is_filler (c : Container) : bool :=
  match title_elem c with
  | Some t => contains (u "Shop on eBay") (text t)
  | None => false
  end.

(** The link target of the container, when it has one. *)
Definition href (c : Container) : option pystr :=
  match link_elem c with
  | Some l => attr (u "href") l
  | None => None
  end.

(** The container has a link target that is not the empty string. *)
Definition has_url (c : Container) : bool := truthy_opt (href c).

(** The container is kept: not a filler item, and with a URL. *)
Definition retained (c : Container) : bool :=
  negb (is_filler c) && has_url c.

(** Characters of a canonical price: those of ["US $"] and those a
    float is written with (digits, sign, point, exponent mark, and the
    letters of [inf] and [nan]). *)
Definition canonical_char (c : N) : bool :=
  ((43 <=? c)%N && (c <=? 57)%N)
  || existsb (N.eqb c) [97; 101; 102; 105; 110; 85; 83; 32; 36]%N.

Definition canonical (s : pystr) : Prop :=
  Forall (fun c => canonical_char c = true) s.

(** The exact value [m * 2^e * 10^nd] as a fraction. *)
Definition scaled_value (m : positive) (e nd : Z) : Z * Z :=
  if 0 <=? e then (Zpos m * 10 ^ nd * 2 ^ e, 1)
  else (Zpos m * 10 ^ nd, 2 ^ (- e)).

(** [n] is an integer nearest to [num / den], and the even one when two
    integers are equally near. *)
Definition nearest_even (v : Z * Z) (n : Z) : bool :=
  let '(num, den) := v in
  (2 * Z.abs (num - n * den) <? den)
  || ((2 * Z.abs (num - n * den) =? den) && Z.even n).

(** A status entry written at the [k]-th clock reading after those of
    state [s]. *)
Definition stamped (w : World) (s : Sys) (k : nat) (message : pystr) : pystr :=
  u "[" ++ now w (k + clock_ix s) ++ u "] " ++ message.

(** The text of the waiting time announced after the failed [attempt],
    drawn from the [k]-th random reading after those of state [s]. *)
Definition announced_wait (w : World) (s : Sys) (k : nat) (attempt : Z)
  : pystr :=
  format_fixed 2
    (fadd (of_int (2 ^ attempt))
       (fadd (of_int 0)
          (fmul (SFsub prec emax (of_int 1) (of_int 0))
             (random w (k + random_ix s))))).

(** The six entries that three failed attempts, made from state [s],
    leave in the log: an error entry for each attempt, a retry entry
    after the first and the second, and the give-up entry after the
    third. *)
Definition failure_entries (w : World) (s : Sys) (url : pystr)
    (e0 e1 e2 : pystr) : list pystr :=
  [ stamped w s 0 (u "Error fetching " ++ url ++ u ": " ++ e0);
    stamped w s 1
      (u "Retrying in " ++ announced_wait w s 0 0 ++ u " seconds...");
    stamped w s 2 (u "Error fetching " ++ url ++ u ": " ++ e1);
    stamped w s 3
      (u "Retrying in " ++ announced_wait w s 1 1 ++ u " seconds...");
    stamped w s 4 (u "Error fetching " ++ url ++ u ": " ++ e2);
    stamped w s 5 (u "Max retries reached. Moving on.") ].

(** The state after [message] has been logged from state [s]. *)
Definition logged (w : World) (message : pystr) (s : Sys) : Sys :=
  snd (add_status_update w message s).

Definition scraping_page (page_number : Z) : pystr :=
  u "Scraping page " ++ str_of_int page_number ++ u "...".

Definition no_products (page_number : Z) : pystr :=
  u "No products found on page " ++ str_of_int page_number ++ u ". Stopping.".

Definition fetch_failed : pystr := u "Failed to fetch page content. Stopping.".

(** A computation that leaves the products, the base URL and the
    running flag of the instance as they are. *)
Definition preserves {A} (c : M A) : Prop :=
  forall s,
    products (self (snd (c s))) = products (self s) /\
    base_url (self (snd (c s))) = base_url (self s) /\
    is_running (self (snd (c s))) = is_running (self s).

(** The title and the image of a kept item. *)
Definition item_title (c : Container) : pystr :=
  match title_elem c with
  | Some t => strip (text t)
  | None => u "No Title"
  end.

Definition item_image (c : Container) : option pystr :=
  image_from_scan (all_imgs c)
    (image_from_picture (picture_elem c) (image_from_elem (image_elem c))).

(** The URLs of the containers that are kept, in page order. *)
Definition kept_urls (cs : list Container) : list pystr :=
  flat_map (fun c =>
              if retained c
              then match href c with Some url => [url] | None => [] end
              else []) cs.

(** A computation that leaves the base URL of the instance as it is. *)
Definition keeps_base_url {A} (c : M A) : Prop :=
  forall s, base_url (self (snd (c s))) = base_url (self s).

(** ** Vocabulary for the properties of the methods *)

(** The body of the first request that succeeds among [n] requests for
    [url], from the [i]-th on. *)
Fixpoint first_fetched (w : World) (url : pystr) (i n : nat) : option pystr :=
  match n with
  | O => None
  | S n' =>
      match http_get w i url with
      | Fetched body => Some body
      | RequestException _ => first_fetched w url (S i) n'
      end
  end.

(** The number of requests that fail before the first success, among [n]
    requests for [url] from the [i]-th on. *)
Fixpoint failures_before (w : World) (url : pystr) (i n : nat) : nat :=
  match n with
  | O => O
  | S n' =>
      match http_get w i url with
      | Fetched _ => O
      | RequestException _ => S (failures_before w url (S i) n')
      end
  end.

(** A computation whose final state is related to its initial state. *)
Definition relates (R : Sys -> Sys -> Prop) {A} (c : M A) : Prop :=
  forall s, R s (snd (c s)).

(** The log has only grown. *)
Definition log_extends (s s' : Sys) : Prop :=
  exists l, status_updates (self s') = status_updates (self s) ++ l.

(** The collected products have only grown. *)
Definition products_extend (s s' : Sys) : Prop :=
  exists l, products (self s') = products (self s) ++ l.

(** No request and no random number has been taken. *)
Definition offline (s s' : Sys) : Prop :=
  request_ix s' = request_ix s /\ random_ix s' = random_ix s.

(** Nothing of the instance but its log has changed. *)
Definition only_log_changes (s s' : Sys) : Prop :=
  products (self s') = products (self s) /\
  base_url (self s') = base_url (self s) /\
  is_running (self s') = is_running (self s) /\
  progress (self s') = progress (self s).

(** The base URL and the progress field are as they were. *)
Definition keeps_settings (s s' : Sys) : Prop :=
  base_url (self s') = base_url (self s) /\
  progress (self s') = progress (self s).

(** A product as the extractor may emit it: with a URL, and not the
    site's filler item. *)
Definition well_formed (p : Product) : Prop :=
  truthy (product_url p) = true /\
  contains (u "Shop on eBay") (title p) = false.

(** Every collected product is well formed. *)
Definition products_well_formed (s : Sys) : Prop :=
  Forall well_formed (products (self s)).

(** The price text as the price block classifies it: trimmed, cut at
    a range and at a unit, with the spellings of [NT$] coalesced. *)
Definition cleaned_price (elem : Tag) : pystr :=
  let price := strip (text elem) in
  let price :=
    if contains (u " to ") price then split_head (u " to ") price
    else price in
  let price :=
    if contains (u "/") price then split_head (u "/") price else price in
  normalize_nt price.

(** The status entry of a conversion. *)
Definition converted (old_price price : pystr) : pystr :=
  u "Converted currency: " ++ old_price ++ u " " ++ arrow ++ u " " ++ price.

(** A computation that, started in a state satisfying [P], returns a
    value and a state satisfying [Q]. *)
Definition hoare {A} (P : Sys -> Prop) (c : M A) (Q : A -> Sys -> Prop)
  : Prop :=
  forall s, P s -> Q (fst (c s)) (snd (c s)).

(** No request has been issued. *)
Definition same_requests (s s' : Sys) : Prop := request_ix s' = request_ix s.

(** The state in which [scrape] enters its loop: the fields reset and
    the two opening entries logged. *)
Definition reset_instance (x : Scraper) : Scraper :=
  set_status_updates []
    (set_products [] (set_progress 0 (set_is_running true x))).

Definition max_pages_text (max_pages : option Z) : pystr :=
  match max_pages with
  | Some n => if (n =? 0)%Z then u "All" else str_of_int n
  | None => u "All"
  end.

Definition loop_entry (w : World) (max_pages : option Z) (s : Sys) : Sys :=
  logged w (u "Maximum pages to scrape: " ++ max_pages_text max_pages)
    (logged w (u "Starting scrape for: " ++ base_url (self s))
       (snd (update_self reset_instance s))).

Definition scraping_complete (total : pystr) : pystr :=
  u "Scraping complete. Total products collected: " ++ total.

Definition stopped_manually : pystr := u "Scrape was stopped manually.".

Definition scraping_error (e : pystr) : pystr :=
  u "Error during scraping: " ++ e.

(** [self.is_running] as a reading in state [s] finds it. *)
Definition live_is_running (w : World) (s : Sys) : bool :=
  if stop_requested w (clock_ix s) then false else is_running (self s).

(** The state in which [scrape] returns its list, from the state [s] in
    which its loop ended. *)
Definition loop_exit (w : World) (s : Sys) : Sys :=
  let s1 := logged w (scraping_complete (len (products (self s)))) s in
  let s2 := snd (read_is_running w s1) in
  let s3 := if live_is_running w s1 then s2
            else logged w stopped_manually s2 in
  snd (update_self (set_is_running false) s3).

(** The state in which [scrape] returns after its handler, from the
    state [s] in which the exception left the loop. *)
Definition handler_exit (w : World) (e : pystr) (s : Sys) : Sys :=
  snd (update_self (set_is_running false) (logged w (scraping_error e) s)).

(** The state in which the loop of [scrape] ends, and how, for a call in
    state [s]. *)
Definition loop_end (w : World) (fuel : nat) (max_pages : option Z) (s : Sys)
  : option LoopExit * Sys :=
  scrape_loop w fuel max_pages (Some (base_url (self s))) 1
    (loop_entry w max_pages s).

(** The number of loop iterations a page limit allows from page
    [page_number] on. *)
Definition pages_left (max_pages page_number : Z) : nat :=
  Z.to_nat (Z.max 1 (max_pages - page_number + 1)).

(** A world in which nothing ever ends a crawl: nobody asks to stop,
    every request returns a non-empty page that holds a product to keep,
    and [urljoin] always returns a URL, never the empty string. *)
Definition productive (w : World) : Prop :=
  (forall k, stop_requested w k = false) /\
  (forall base target, exists r,
      urljoin w base target = Returned r /\ truthy r = true) /\
  (forall k url, exists body,
      http_get w k url = Fetched body /\ truthy body = true /\
      kept_urls (s_items (BeautifulSoup w body)) <> []).

(** An image tag that the last-resort scan accepts: it has a [src] that
    does not end in "gif" and contains "https://". *)
Definition scan_accepts (img : Tag) : bool :=
  match attr (u "src") img with
  | Some v => negb (endswith (u "gif") v) && contains (u "https://") v
  | None => false
  end.

End Spec.

(** ** Concrete inputs used in the examples *)

Module Examples.

Import EbayScraper.

Definition no_page : Soup :=
  {| s_items := []; pagination_items := []; pagination_next := None |}.

(** A world in which every request times out. *)
Definition failing_world : World :=
  {| http_get := fun _ _ => RequestException (u "timed out");
     now := fun _ => u "12:00:00";
     random := fun _ => lit "0.5";
     stop_requested := fun _ => false;
     BeautifulSoup := fun _ => no_page;
     urljoin := fun _ target => Returned target |}.

(** A world in which every request returns the given body, which holds
    no items and no pagination control. *)
Definition world_serving (body : pystr) : World :=
  {| http_get := fun _ _ => Fetched body;
     now := fun _ => u "12:00:00";
     random := fun _ => lit "0.5";
     stop_requested := fun _ => false;
     BeautifulSoup := fun _ => no_page;
     urljoin := fun _ target => Returned target |}.

Definition search_url : pystr := u "https://www.ebay.com/sch/i.html?_nkw=phone".

(** A freshly constructed scraper, before any outside reading. *)
Definition fresh (url : pystr) : Sys :=
  {| self := init url; clock_ix := 0; request_ix := 0; random_ix := 0 |}.

(** A scraper in the middle of a run, with one product collected. *)
Definition a_product : Product :=
  {| title := u "Phone"; price := u "US $10.0";
     product_url := u "https://www.ebay.com/itm/1"; image_url := None |}.

Definition running (url : pystr) : Sys :=
  {| self := set_products [a_product] (set_is_running true (init url));
     clock_ix := 3; request_ix := 1; random_ix := 1 |}.

Definition plain (s : string) : Tag := {| text := u s; attrs := [] |}.

Definition link (target : string) : Tag :=
  {| text := []; attrs := [(u "href", u target)] |}.

(** A filler item that carries a link. *)
Definition filler_item : Container :=
  {| title_elem := Some (plain "Shop on eBay");
     price_elem := Some (plain "$20.00");
     link_elem := Some (link "https://www.ebay.com/itm/123");
     image_elem := None; picture_elem := None; all_imgs := [] |}.

(** An item with nothing but a link. *)
Definition bare_item : Container :=
  {| title_elem := None; price_elem := None;
     link_elem := Some (link "https://www.ebay.com/itm/7");
     image_elem := None; picture_elem := None; all_imgs := [] |}.

(** A scraper whose [base_url] field holds the given text. *)
Definition with_base_url (base : pystr) : Scraper :=
  {| base_url := base; products := []; status_updates := [];
     is_running := false; progress := 0 |}.

Definition some_page : pystr := u "<html><body></body></html>".

(** A world in which every page holds one item and no pagination
    control. *)
Definition endless_world : World :=
  {| http_get := fun _ _ => Fetched some_page;
     now := fun _ => u "12:00:00";
     random := fun _ => lit "0.5";
     stop_requested := fun _ => false;
     BeautifulSoup := fun _ =>
       {| s_items := [bare_item]; pagination_items := [];
          pagination_next := None |};
     urljoin := fun _ target =>
       Returned (u "https://www.ebay.com" ++ target) |}.

(** The product extracted from [bare_item]. *)
Definition bare_product : Product :=
  {| title := u "No Title"; price := u "No Price";
     product_url := u "https://www.ebay.com/itm/7"; image_url := None |}.

(** A world in which every page holds one item and a "next" button whose
    target is "//[", on which [urljoin] raises. *)
Definition broken_link_world : World :=
  {| http_get := fun _ _ => Fetched some_page;
     now := fun _ => u "12:00:00";
     random := fun _ => lit "0.5";
     stop_requested := fun _ => false;
     BeautifulSoup := fun _ =>
       {| s_items := [bare_item]; pagination_items := [plain "1"];
          pagination_next := Some (link "//[") |};
     urljoin := fun _ target =>
       if PyStr.eqb target (u "//[") then Raised (u "Invalid IPv6 URL")
       else Returned target |}.

(** A world like [endless_world] in which the stop button is pressed
    while the first page is being scraped. *)
Definition stopping_world : World :=
  {| http_get := fun _ _ => Fetched some_page;
     now := fun _ => u "12:00:00";
     random := fun _ => lit "0.5";
     stop_requested := fun k => Nat.leb 4 k;
     BeautifulSoup := fun _ =>
       {| s_items := [bare_item]; pagination_items := [];
          pagination_next := None |};
     urljoin := fun _ target => Returned target |}.

End Examples.

(** * Properties *)

Import EbayScraper Spec Examples.

Unset Implicit Arguments.

(** ** Strings *)

Lemma startswith_nil (s : pystr) : startswith [] s = true.
Proof. destruct s; reflexivity. Qed.

Lemma contains_cons (p : pystr) (c : N) (s : pystr) :
  contains p s = true -> contains p (c :: s) = true.
Proof.
  intros H. cbn [contains]. rewrite H. apply orb_true_r.
Qed.

Lemma startswith_app (p s t : pystr) :
  startswith p s = true -> startswith p (s ++ t) = true.
Proof.
  revert s. induction p as [|a p IH]; intros [|b s]; cbn; try easy.
  intros H. apply andb_true_iff in H as [-> H]. cbn. now apply IH.
Qed.

Lemma startswith_self_app (p t : pystr) : startswith p (p ++ t) = true.
Proof.
  induction p as [|a p IH]; cbn; [reflexivity|].
  now rewrite N.eqb_refl.
Qed.

Lemma contains_app_l (p s t : pystr) :
  contains p s = true -> contains p (s ++ t) = true.
Proof.
  induction s as [|c s IH]; cbn [contains app].
  - rewrite orb_false_r. intros H. destruct p; [|discriminate].
    destruct t; reflexivity.
  - intros H. apply orb_true_iff in H as [H|H].
    + apply (startswith_app p (c :: s) t) in H. cbn [app] in H.
      rewrite H. reflexivity.
    + rewrite (IH H). apply orb_true_r.
Qed.

Lemma contains_app_r (p s t : pystr) :
  contains p t = true -> contains p (s ++ t) = true.
Proof.
  intros H. induction s as [|c s IH]; [exact H|].
  cbn [app]. now apply contains_cons.
Qed.

Lemma contains_prefix (p t : pystr) : contains p (p ++ t) = true.
Proof.
  destruct p as [|a p]; [destruct t; reflexivity|].
  cbn [contains app].
  change (a :: p ++ t) with ((a :: p) ++ t).
  now rewrite startswith_self_app.
Qed.

(** A pattern whose first character never occurs in a text does not
    occur in it. *)
Lemma contains_head_absent (h : N) (p s : pystr) :
  Forall (fun c => N.eqb h c = false) s -> contains (h :: p) s = false.
Proof.
  induction 1 as [|c s Hc Hs IH]; [reflexivity|].
  cbn [contains startswith]. rewrite Hc, IH. reflexivity.
Qed.

(** ** The currency normaliser *)

(** The loop of [convert_to_usd] in closed form: the numeric run does not
    depend on the symbol, so an entry tried after a failed parse fails in
    the same way. *)
Lemma convert_loop_closed (items : list (pystr * float)) (price_str : pystr) :
  convert_loop items price_str =
  match find (fun kv => contains (fst kv) price_str) items,
        parsed_amount price_str with
  | Some (_, rate), Some amount =>
      Some (US_prefix ++ repr (py_round (fdiv amount rate) 1))
  | _, _ => None
  end.
Proof.
  induction items as [|[sym rate] rest IH]; [reflexivity|].
  cbn [convert_loop find fst].
  destruct (contains sym price_str).
  - unfold convert_with, parsed_amount in *.
    destruct (search_numeric price_str) as [amount_str|].
    + destruct (float_of_str (replace [44%N] [] amount_str)) as [amount|].
      * destruct (PyStr.eqb sym GBP || PyStr.eqb sym EUR); reflexivity.
      * rewrite IH. destruct (find _ rest) as [[? ?]|]; reflexivity.
    + rewrite IH. destruct (find _ rest) as [[? ?]|]; reflexivity.
  - exact IH.
Qed.

Lemma convert_to_usd_closed (price_str : pystr) :
  convert_to_usd price_str = to_canonical py_round price_str.
Proof.
  unfold convert_to_usd, to_canonical, first_symbol.
  rewrite convert_loop_closed.
  destruct (find _ EXCHANGE_RATES) as [[? ?]|]; [|reflexivity].
  destruct (parsed_amount price_str); reflexivity.
Qed.

(** The digit chosen by [round] is a nearest integer to the scaled exact
    value [num / den], and the even one when two are equally near. *)
Lemma round_half_even_scaled_nearest (m : positive) (e nd : Z) :
  let n := round_half_even_scaled m e nd in
  let num := (if 0 <=? e then Zpos m * 10 ^ nd * 2 ^ e else Zpos m * 10 ^ nd)%Z in
  let den := (if 0 <=? e then 1 else 2 ^ (- e))%Z in
  (2 * Z.abs (num - n * den) <= den)%Z /\
  ((2 * Z.abs (num - n * den) = den)%Z -> Z.even n = true).
Proof.
  unfold round_half_even_scaled. cbv zeta.
  destruct (Z.leb_spec 0 e) as [He|He].
  - split; [lia|]. intros H. lia.
  - set (num := (Zpos m * 10 ^ nd)%Z).
    set (den := (2 ^ (- e))%Z).
    assert (Hden : (0 < den)%Z) by (apply Z.pow_pos_nonneg; lia).
    pose proof (Z.div_mod num den ltac:(lia)) as Hdm.
    pose proof (Z.mod_pos_bound num den Hden) as Hr.
    set (q := (num / den)%Z) in *. set (r := (num mod den)%Z) in *.
    destruct (Z.compare_spec (2 * r) den) as [Heq|Hlt|Hgt].
    + destruct (Z.even q) eqn:Hq.
      * split; [nia|]. intros _. exact Hq.
      * split; [nia|]. intros _.
        rewrite Z.even_add, Hq. reflexivity.
    + split; [nia|]. intros H. nia.
    + split; [nia|]. intros H. nia.
Qed.

(** ** The text of a float *)

Lemma digits_fuel_canonical (fuel : nat) (n : N) (acc : pystr) :
  canonical acc -> canonical (digits_fuel fuel n acc).
Proof.
  revert n acc. induction fuel as [|f IH]; intros n acc Hacc; [exact Hacc|].
  cbn [digits_fuel].
  assert (Hd : canonical ((48 + n mod 10)%N :: acc)).
  { constructor; [|exact Hacc].
    pose proof (N.mod_upper_bound n 10 ltac:(discriminate)) as Hlt.
    set (d := (n mod 10)%N) in *. clearbody d.
    unfold canonical_char.
    replace ((43 <=? 48 + d)%N) with true
      by (symmetry; apply N.leb_le; lia).
    replace ((48 + d <=? 57)%N) with true
      by (symmetry; apply N.leb_le; lia).
    reflexivity. }
  destruct (N.eqb (n / 10) 0); [exact Hd|]. now apply IH.
Qed.

Lemma digits_canonical (n : N) : canonical (digits n).
Proof. apply digits_fuel_canonical. constructor. Qed.

Lemma zeros_canonical (n : Z) : canonical (zeros n).
Proof.
  unfold zeros. induction (Z.to_nat n) as [|k IH]; constructor; easy.
Qed.

Lemma canonical_app (s t : pystr) :
  canonical s -> canonical t -> canonical (s ++ t).
Proof. intros Hs Ht. apply Forall_app. now split. Qed.

Lemma canonical_literal (s : pystr) :
  forallb canonical_char s = true -> canonical s.
Proof. intros H. apply Forall_forall. now apply forallb_forall. Qed.

Lemma sign_canonical (b : bool) : canonical (sign_str b).
Proof. destruct b; now apply canonical_literal. Qed.

Lemma layout_repr_canonical (ds : pystr) (decpt : Z) :
  canonical ds -> canonical (layout_repr ds decpt).
Proof.
  intros Hds. unfold layout_repr.
  destruct ((decpt <=? -4)%Z || (16 <? decpt)%Z).
  - apply canonical_app.
    + destruct ds as [|d [|d' rest]]; [constructor|exact Hds|].
      inversion Hds as [|? ? Hd Hrest]; subst.
      constructor; [exact Hd|]. constructor; [reflexivity|exact Hrest].
    + apply canonical_app.
      * constructor; [reflexivity|].
        constructor; [|constructor].
        destruct (decpt - 1 <? 0)%Z; reflexivity.
      * destruct (Z.abs (decpt - 1) <? 10)%Z;
          [constructor; [reflexivity|]|]; apply digits_canonical.
  - destruct (decpt <=? 0)%Z.
    + apply canonical_app; [now apply canonical_literal|].
      apply canonical_app; [apply zeros_canonical|exact Hds].
    + destruct (Z.of_nat (List.length ds) <=? decpt)%Z.
      * apply canonical_app; [exact Hds|].
        apply canonical_app; [apply zeros_canonical|now apply canonical_literal].
      * rewrite <- (firstn_skipn (Z.to_nat decpt) ds) in Hds.
        apply Forall_app in Hds as [H1 H2].
        apply canonical_app; [exact H1|].
        constructor; [reflexivity|exact H2].
Qed.

Lemma repr_canonical (x : float) : canonical (repr x).
Proof.
  destruct x as [s|s| |s m e]; cbn [repr].
  - apply canonical_app; [apply sign_canonical|now apply canonical_literal].
  - apply canonical_app; [apply sign_canonical|now apply canonical_literal].
  - now apply canonical_literal.
  - destruct (frac_of m e) as [num den].
    destruct (shortest 17 m e (floor_log10 num den) 1) as [D0 p0].
    destruct (strip_zeros 400 D0 p0) as [D p].
    apply canonical_app; [apply sign_canonical|].
    apply layout_repr_canonical, digits_canonical.
Qed.

Lemma canonical_price (x : float) : canonical (US_prefix ++ repr x).
Proof.
  apply canonical_app; [now apply canonical_literal|apply repr_canonical].
Qed.

(** No symbol of the exchange-rate table begins with a character of a
    canonical price, so none occurs in one. *)
Lemma canonical_avoids (h : N) (s : pystr) :
  canonical_char h = false -> canonical s ->
  Forall (fun c => N.eqb h c = false) s.
Proof.
  intros Hh Hs. eapply Forall_impl; [|exact Hs].
  intros c Hc. cbv beta in Hc.
  destruct (N.eqb_spec h c) as [->|]; [congruence|reflexivity].
Qed.

Lemma canonical_has_no_currency (s : pystr) :
  canonical s -> has_currency s = false.
Proof.
  intros Hs. unfold has_currency, EXCHANGE_RATES, GBP, EUR, JPY, KRW, INR.
  cbn [existsb fst].
  change (u "NT$") with [78; 84; 36]%N.
  change (u "HK$") with [72; 75; 36]%N.
  change (u "C$") with [67; 36]%N.
  change (u "A$") with [65; 36]%N.
  rewrite !contains_head_absent by (apply canonical_avoids; [reflexivity|exact Hs]).
  reflexivity.
Qed.

Lemma convert_loop_without_currency (items : list (pystr * float))
    (s : pystr) :
  existsb (fun kv => contains (fst kv) s) items = false ->
  convert_loop items s = None.
Proof.
  induction items as [|[sym rate] rest IH]; [reflexivity|].
  cbn [existsb fst convert_loop]. intros H.
  apply orb_false_iff in H as [-> H]. now apply IH.
Qed.

Lemma convert_to_usd_without_currency (s : pystr) :
  has_currency s = false -> convert_to_usd s = s.
Proof.
  intros H. unfold convert_to_usd.
  now rewrite convert_loop_without_currency.
Qed.

Lemma first_symbol_has_currency (s : pystr) :
  has_currency s = true -> exists sym rate,
    first_symbol s = Some (sym, rate) /\ In (sym, rate) EXCHANGE_RATES /\
    contains sym s = true.
Proof.
  unfold has_currency, first_symbol. intros H.
  apply existsb_exists in H as [kv [Hin Hc]].
  destruct (find (fun kv => contains (fst kv) s) EXCHANGE_RATES)
    as [[sym rate]|] eqn:Hf.
  - apply find_some in Hf as [Hin' Hc']. now exists sym, rate.
  - apply (find_none _ _ Hf) in Hin. congruence.
Qed.

Lemma py_round_nearest_even (s : bool) (m : positive) (e : Z) :
  exists n, py_round (S754_finite s m e) 1 = of_decimal s n (-1) /\
            nearest_even (scaled_value m e 1) n = true.
Proof.
  exists (round_half_even_scaled m e 1). split; [reflexivity|].
  pose proof (round_half_even_scaled_nearest m e 1) as H. cbv zeta in H.
  unfold nearest_even, scaled_value.
  destruct (0 <=? e)%Z; destruct H as [Hle Heven].
  - apply orb_true_iff.
    destruct (Z.ltb_spec
                (2 * Z.abs (Z.pos m * 10 ^ 1 * 2 ^ e
                            - round_half_even_scaled m e 1 * 1)) 1);
      [now left|right].
    apply andb_true_iff. split; [apply Z.eqb_eq; lia|apply Heven; lia].
  - apply orb_true_iff.
    destruct (Z.ltb_spec
                (2 * Z.abs (Z.pos m * 10 ^ 1
                            - round_half_even_scaled m e 1 * 2 ^ (- e)))
                (2 ^ (- e))); [now left|right].
    apply andb_true_iff. split; [apply Z.eqb_eq; lia|apply Heven; lia].
Qed.

(** ** Claims on [convert_to_usd] *)

(** C10. The branch of [convert_to_usd] for the pound and the euro
    computes the same [round(amount / rate, 1)] as the branch for the other
    symbols: [convert_to_usd] equals, on every price text, the version
    with one uniform division for every matched symbol. *)
Theorem convert_to_usd_uniform_division (price_str : pystr) :
  convert_to_usd price_str = convert_to_usd_uniform price_str.
Proof.
  unfold convert_to_usd, convert_to_usd_uniform.
  replace (convert_loop_uniform EXCHANGE_RATES price_str)
    with (convert_loop EXCHANGE_RATES price_str); [reflexivity|].
  induction EXCHANGE_RATES as [|[sym rate] rest IH]; [reflexivity|].
  cbn [convert_loop convert_loop_uniform]. rewrite IH.
  destruct (contains sym price_str); [|reflexivity].
  unfold convert_with, convert_with_uniform.
  destruct (search_numeric price_str) as [amount_str|]; [|reflexivity].
  destruct (float_of_str (replace [44%N] [] amount_str)); [|reflexivity].
  case (PyStr.eqb sym GBP || PyStr.eqb sym EUR); reflexivity.
Qed.

(** C8. [convert_to_usd] is idempotent: applied to its own output it
    returns that output unchanged, because a canonical ["US $..."] text
    contains no symbol of the table. *)
Theorem convert_to_usd_idempotent (price_str : pystr) :
  convert_to_usd (convert_to_usd price_str) = convert_to_usd price_str.
Proof.
  assert (H : convert_to_usd price_str = price_str \/
              exists x, convert_to_usd price_str = US_prefix ++ repr x).
  { rewrite convert_to_usd_closed. unfold to_canonical.
    destruct (first_symbol price_str) as [[sym rate]|]; [|now left].
    destruct (parsed_amount price_str) as [amount|]; [|now left].
    right. now exists (py_round (fdiv amount rate) 1). }
  destruct H as [H|[x H]]; rewrite H.
  - exact H.
  - apply convert_to_usd_without_currency, canonical_has_no_currency,
      canonical_price.
Qed.

(** C2 (counterexample). ["A$0.375"] holds a known symbol and a numeral
    that parses; 0.375 / 1.5 is exactly 0.25, which [convert_to_usd]
    rounds to 0.2 while rounding half up gives 0.3. *)
Lemma convert_to_usd_not_half_up :
  first_symbol (u "A$0.375") = Some (u "A$", lit "1.5") /\
  parsed_amount (u "A$0.375") = Some (lit "0.375") /\
  convert_to_usd (u "A$0.375") = u "US $0.2" /\
  to_canonical round_half_up (u "A$0.375") = u "US $0.3" /\
  convert_to_usd (u "A$0.375") <> to_canonical round_half_up (u "A$0.375").
Proof.
  split; [vm_compute; reflexivity|].
  split; [vm_compute; reflexivity|].
  split; [vm_compute; reflexivity|].
  split; [vm_compute; reflexivity|].
  vm_compute. discriminate.
Qed.

(** C2 (amended). When the first symbol of the table that occurs in the
    price text has rate [rate] and the first numeric run parses to
    [amount], [convert_to_usd] returns ["US $"] followed by the text of
    [round(amount / rate, 1)]; in every other case, in particular when
    the numeric run is malformed, it returns the text unchanged (it never
    raises).  The rounding is Python's: the decimal with one place
    nearest to the exact binary value, and on a tie the one whose last
    digit is even. *)
Theorem convert_to_usd_rounds_half_even :
  (forall price_str,
     match first_symbol price_str, parsed_amount price_str with
     | Some (_, rate), Some amount =>
         convert_to_usd price_str
         = US_prefix ++ repr (py_round (fdiv amount rate) 1)
     | _, _ => convert_to_usd price_str = price_str
     end) /\
  (forall s m e, exists n,
     py_round (S754_finite s m e) 1 = of_decimal s n (-1) /\
     nearest_even (scaled_value m e 1) n = true).
Proof.
  split; [|exact py_round_nearest_even].
  intros price_str. rewrite convert_to_usd_closed. unfold to_canonical.
  destruct (first_symbol price_str) as [[sym rate]|]; [|reflexivity].
  destruct (parsed_amount price_str); reflexivity.
Qed.

(** C4 (counterexample). ["NT$ only"] contains the symbol [NT$] but no
    numeral: it is returned unchanged and does not begin with
    ["US $"]. *)
Lemma convert_to_usd_symbol_without_number :
  has_currency (u "NT$ only") = true /\
  convert_to_usd (u "NT$ only") = u "NT$ only" /\
  startswith US_prefix (convert_to_usd (u "NT$ only")) = false.
Proof. repeat split; vm_compute; reflexivity. Qed.

(** C4 (amended). For every price text that contains a symbol of the
    table and whose first numeric run parses to [amount], the output of
    [convert_to_usd] begins with ["US $"], followed by the text of
    [round(amount / rate, 1)] for the rate of a symbol of the table that
    occurs in the text. *)
Theorem convert_to_usd_canonical_prefix (price_str : pystr) (amount : float) :
  has_currency price_str = true ->
  parsed_amount price_str = Some amount ->
  exists sym rate,
    In (sym, rate) EXCHANGE_RATES /\ contains sym price_str = true /\
    convert_to_usd price_str
    = US_prefix ++ repr (py_round (fdiv amount rate) 1) /\
    startswith US_prefix (convert_to_usd price_str) = true.
Proof.
  intros Hc Ha.
  destruct (first_symbol_has_currency price_str Hc)
    as (sym & rate & Hf & Hin & Hs).
  exists sym, rate. rewrite convert_to_usd_closed. unfold to_canonical.
  rewrite Hf, Ha.
  split; [exact Hin|]. split; [exact Hs|]. split; [reflexivity|].
  apply startswith_self_app.
Qed.

(** The amended C4 at the price text ["NT$1,200"]. *)
Lemma convert_to_usd_canonical_prefix_witness :
  has_currency (u "NT$1,200") = true /\
  parsed_amount (u "NT$1,200") = Some (lit "1200") /\
  exists sym rate,
    In (sym, rate) EXCHANGE_RATES /\ contains sym (u "NT$1,200") = true /\
    convert_to_usd (u "NT$1,200")
    = US_prefix ++ repr (py_round (fdiv (lit "1200") rate) 1) /\
    startswith US_prefix (convert_to_usd (u "NT$1,200")) = true.
Proof.
  split; [vm_compute; reflexivity|].
  split; [vm_compute; reflexivity|].
  apply (convert_to_usd_canonical_prefix (u "NT$1,200") (lit "1200"));
    vm_compute; reflexivity.
Defined.

(** The scenario of the specification for the Taiwan dollar. *)
Example convert_nt_dollar : convert_to_usd (u "NT$1,200") = u "US $36.5".
Proof. vm_compute. reflexivity. Qed.

(** The text after the prefix is that of a float: a large amount is
    written in exponent notation, without a decimal place. *)
Example convert_large_amount :
  convert_to_usd (u "HK$78000000000000000000") = u "US $1e+19".
Proof. vm_compute. reflexivity. Qed.

(** ** Claims on the price block of the extractor *)

(** C1 (counterexample). The price text ["$10 to $20"] comes out of the
    price block as ["US $10.0"], not as ["US $10"]. *)
Lemma price_range_not_bare_integer :
  fst (extract_price failing_world (Some (plain "$10 to $20"))
         (fresh search_url)) = u "US $10.0" /\
  fst (extract_price failing_world (Some (plain "$10 to $20"))
         (fresh search_url)) <> u "US $10".
Proof.
  split; [vm_compute; reflexivity|vm_compute; discriminate].
Qed.

(** C1 (amended). For the price text ["$10 to $20"] the range is trimmed
    to ["$10"] before the currency handling, and the final price string
    is exactly ["US $10.0"], whatever the environment and the state; no
    status entry is written. *)
Theorem price_range_trimmed (w : World) (a : list (pystr * pystr)) (s : Sys) :
  split_head (u " to ") (strip (u "$10 to $20")) = u "$10" /\
  extract_price w (Some {| text := u "$10 to $20"; attrs := a |}) s
  = (u "US $10.0", s).
Proof.
  split; vm_compute; reflexivity.
Qed.

(** ** Splitting and joining *)

Lemma startswith_contains (p s : pystr) :
  startswith p s = true -> contains p s = true.
Proof. intros H. destruct s; cbn [contains]; rewrite H; reflexivity. Qed.

Lemma split_once_exists (sep s : pystr) :
  contains sep s = true -> exists a b, split_once sep s = Some (a, b).
Proof.
  induction s as [|c s IH]; cbn [contains split_once]; intros H.
  - rewrite orb_false_r in H. rewrite H. eauto.
  - destruct (startswith sep (c :: s)); [eauto|].
    destruct (IH H) as (a & b & ->). eauto.
Qed.

Lemma split_once_contains (sep s a b : pystr) :
  split_once sep s = Some (a, b) -> contains sep s = true.
Proof.
  revert a. induction s as [|c s IH]; intros a; cbn [split_once contains].
  - destruct (startswith sep []); [reflexivity|discriminate].
  - destruct (startswith sep (c :: s)); [reflexivity|].
    destruct (split_once sep s) as [[a' b']|] eqn:E; [|discriminate].
    intros H. injection H as _ Hb. subst b'.
    rewrite (IH a' eq_refl). apply orb_true_r.
Qed.

Lemma split_char_nonempty (c : N) (s : pystr) :
  exists p ps, split_char c s = p :: ps.
Proof.
  induction s as [|x s (p & ps & IH)]; cbn [split_char]; [eauto|].
  destruct (N.eqb x c); [eauto|]. rewrite IH. eauto.
Qed.

(** A pattern without the separator that begins a text begins its first
    piece. *)
Lemma split_char_head (c : N) (pat s : pystr) :
  Forall (fun a => N.eqb a c = false) pat ->
  startswith pat s = true ->
  exists p ps, split_char c s = p :: ps /\ startswith pat p = true.
Proof.
  intros Hpat. revert s.
  induction Hpat as [|a pat Ha Hpat IH]; intros s Hs.
  - destruct (split_char_nonempty c s) as (p & ps & E).
    exists p, ps. split; [exact E|apply startswith_nil].
  - destruct s as [|b s]; [discriminate|].
    cbn [startswith] in Hs. apply andb_true_iff in Hs as [Hab Hs].
    apply N.eqb_eq in Hab. subst b.
    destruct (IH s Hs) as (p & ps & E & Hp).
    cbn [split_char]. rewrite Ha, E.
    exists (a :: p), ps. split; [reflexivity|].
    cbn [startswith]. now rewrite N.eqb_refl.
Qed.

(** A pattern without the separator that occurs in a text occurs in one
    of its pieces. *)
Lemma split_char_keeps_occurrence (c : N) (pat s : pystr) :
  Forall (fun a => N.eqb a c = false) pat ->
  contains pat s = true ->
  exists p, In p (split_char c s) /\ contains pat p = true.
Proof.
  intros Hpat. induction s as [|x s IH]; cbn [contains]; intros H.
  - rewrite orb_false_r in H. exists []. split; [now left|].
    now apply startswith_contains.
  - apply orb_true_iff in H as [H|H].
    + destruct (split_char_head c pat (x :: s) Hpat H) as (p & ps & E & Hp).
      exists p. rewrite E. split; [now left|now apply startswith_contains].
    + destruct (IH H) as (p & Hin & Hp).
      cbn [split_char]. destruct (N.eqb x c).
      * exists p. split; [now right|exact Hp].
      * destruct (split_char c s) as [|p0 ps]; [destruct Hin|].
        destruct Hin as [<-|Hin].
        -- exists (x :: p0). split; [now left|now apply contains_cons].
        -- exists p. split; [now right|exact Hp].
Qed.

Lemma contains_join (pat sep p : pystr) (parts : list pystr) :
  In p parts -> contains pat p = true ->
  contains pat (join sep parts) = true.
Proof.
  intros Hin Hp. induction parts as [|p0 rest IH]; [destruct Hin|].
  destruct Hin as [->|Hin].
  - destruct rest; [exact Hp|]. cbn [join]. now apply contains_app_l.
  - destruct rest as [|p1 rest]; [destruct Hin|].
    change (join sep (p0 :: p1 :: rest))
      with (p0 ++ sep ++ join sep (p1 :: rest)).
    apply contains_app_r, contains_app_r, IH, Hin.
Qed.

(** Splitting at the first occurrence of a character looks no further
    than that occurrence. *)
Lemma split_once_char_app (q : N) (s t a b : pystr) :
  split_once [q] s = Some (a, b) ->
  split_once [q] (s ++ t) = Some (a, b ++ t).
Proof.
  revert a. induction s as [|c s IH]; intros a; [discriminate|].
  cbn [split_once app startswith]. rewrite !andb_true_r.
  destruct (N.eqb q c).
  - cbn. intros H. now injection H as <- <-.
  - destruct (split_once [q] s) as [[a' b']|]; [|discriminate].
    intros H. injection H as <- <-. now rewrite (IH a' eq_refl).
Qed.

Lemma split_once_char_fresh (q : N) (a b : pystr) :
  contains [q] a = false -> split_once [q] (a ++ q :: b) = Some (a, b).
Proof.
  induction a as [|x a IH]; intros H.
  - cbn. now rewrite N.eqb_refl.
  - cbn [contains startswith] in H. rewrite andb_true_r in H.
    apply orb_false_iff in H as [Hx Ha].
    cbn [split_once app startswith].
    rewrite andb_true_r, Hx, (IH Ha). reflexivity.
Qed.

Lemma split_char_app (c : N) (a b : pystr) :
  split_char c (a ++ c :: b) = split_char c a ++ split_char c b.
Proof.
  induction a as [|x a IH]; cbn [split_char app].
  - now rewrite N.eqb_refl.
  - rewrite IH. destruct (N.eqb x c); [reflexivity|].
    destruct (split_char_nonempty c a) as (p & ps & ->). reflexivity.
Qed.

Lemma join_app (sep : pystr) (l l' : list pystr) :
  l <> [] -> l' <> [] ->
  join sep (l ++ l') = join sep l ++ sep ++ join sep l'.
Proof.
  intros Hl Hl'. induction l as [|p l IH]; [congruence|].
  destruct l as [|p' l].
  - cbn [app]. destruct l' as [|q l']; [congruence|]. reflexivity.
  - change (join sep ((p :: p' :: l) ++ l'))
      with (p ++ sep ++ join sep ((p' :: l) ++ l')).
    rewrite IH by discriminate.
    change (join sep (p :: p' :: l)) with (p ++ sep ++ join sep (p' :: l)).
    now rewrite <- !app_assoc.
Qed.

Lemma contains_refl (p : pystr) : contains p p = true.
Proof. rewrite <- (app_nil_r p) at 2. apply contains_prefix. Qed.

Lemma split_once_char_eq (q : N) (s a b : pystr) :
  split_once [q] s = Some (a, b) -> s = a ++ q :: b.
Proof.
  revert a. induction s as [|c s IH]; intros a; [discriminate|].
  cbn [split_once startswith]. rewrite andb_true_r.
  destruct (N.eqb q c) eqn:E.
  - cbn. intros H. injection H as <- <-. apply N.eqb_eq in E. now subst c.
  - destruct (split_once [q] s) as [[a' b']|]; [|discriminate].
    intros H. injection H as <- <-. cbn [app]. now rewrite <- (IH a' eq_refl).
Qed.

(** Joining the pieces of a text with the separator gives the text
    back. *)
Lemma join_split_char (c : N) (s : pystr) : join [c] (split_char c s) = s.
Proof.
  induction s as [|x s IH]; [reflexivity|].
  cbn [split_char]. destruct (N.eqb x c) eqn:E.
  - apply N.eqb_eq in E. subst x.
    destruct (split_char_nonempty c s) as (p & ps & Hs).
    rewrite Hs in *. cbn [join]. cbn [join] in IH. now rewrite IH.
  - destruct (split_char_nonempty c s) as (p & ps & Hs).
    rewrite Hs in *. destruct ps as [|p' ps].
    + cbn [join] in *. now rewrite IH.
    + change (join [c] ((x :: p) :: p' :: ps))
        with (x :: (p ++ [c] ++ join [c] (p' :: ps))).
      change (join [c] (p :: p' :: ps))
        with (p ++ [c] ++ join [c] (p' :: ps)) in IH.
      now rewrite IH.
Qed.

(** ** Claims on the paginator *)

Lemma init_has_query (url : pystr) :
  contains (u "?") (base_url (init url)) = true.
Proof.
  unfold init. destruct (contains (u "?") url) eqn:E; cbn [base_url].
  - now apply contains_app_l.
  - apply contains_app_r, contains_prefix.
Qed.

(** With a page at hand and no pagination control on it, the next URL
    is built from the query string. *)
Lemma get_next_page_url_fallback (w : World) (x : Scraper) (h : pystr)
    (n : Z) :
  truthy h = true ->
  next_from_pagination w (base_url x) (BeautifulSoup w h) = Returned None ->
  get_next_page_url w x (Some h) n
  = Returned (next_from_query (base_url x) n).
Proof.
  intros Hh Hp. unfold get_next_page_url. now rewrite Hh, Hp.
Qed.

Lemma pgn_free_of_ampersand :
  Forall (fun a => N.eqb a 38 = false) (u "_pgn=").
Proof. repeat constructor. Qed.

Lemma next_from_query_has_page (base : pystr) (n : Z) :
  contains (u "?") base = true ->
  exists r, next_from_query base n = Some r /\
            contains (u "_pgn=") r = true.
Proof.
  intros Hq. unfold next_from_query. rewrite Hq.
  destruct (split_once_exists (u "?") base Hq) as (base_part & query & ->).
  set (next := u "_pgn=" ++ str_of_int (n + 1)).
  assert (Hnext : contains (u "_pgn=") next = true) by apply contains_prefix.
  destruct (contains (u "_pgn=") query) eqn:Hpg.
  - eexists. split; [reflexivity|].
    apply contains_app_r, contains_app_r.
    destruct (split_char_keeps_occurrence 38 (u "_pgn=") query
                pgn_free_of_ampersand Hpg) as (p & Hin & Hp).
    apply contains_join with (p := next); [|exact Hnext].
    apply in_map_iff. exists p. now rewrite Hp.
  - eexists. split; [reflexivity|].
    apply contains_app_r, contains_app_r, Hnext.
Qed.

(** What the query-string fallback builds from a base URL with a
    question mark: the part of the base URL before the question mark,
    followed by a query in which [_pgn=<n + 1>] is a parameter and in
    which every parameter of the base URL that does not hold [_pgn=] is
    still present. *)
Lemma next_from_query_builds (base base_part query_part : pystr) (n : Z) :
  split_once (u "?") base = Some (base_part, query_part) ->
  exists new_query,
    next_from_query base n
    = Some (base_part ++ u "?" ++ join (u "&") new_query) /\
    In (u "_pgn=" ++ str_of_int (n + 1)) new_query /\
    (forall param, In param (split_char 38 query_part) ->
                   contains (u "_pgn=") param = false -> In param new_query).
Proof.
  intros Hs. unfold next_from_query.
  rewrite (split_once_contains _ _ _ _ Hs), Hs.
  set (next := u "_pgn=" ++ str_of_int (n + 1)).
  destruct (contains (u "_pgn=") query_part) eqn:Hpg.
  - eexists. split; [reflexivity|]. split.
    + destruct (split_char_keeps_occurrence 38 (u "_pgn=") query_part
                  pgn_free_of_ampersand Hpg) as (p & Hin & Hp).
      apply in_map_iff. exists p. now rewrite Hp.
    + intros param Hin Hc. apply in_map_iff. exists param. now rewrite Hc.
  - exists (split_char 38 query_part ++ [next]). split; [|split].
    + f_equal. change (u "?") with [63%N] in *. change (u "&") with [38%N].
      rewrite (split_once_char_eq _ _ _ _ Hs) at 1.
      rewrite join_app, join_split_char.
      * cbn [join]. rewrite <- !app_assoc. reflexivity.
      * destruct (split_char_nonempty 38 query_part) as (p & ps & ->).
        discriminate.
      * discriminate.
    + apply in_or_app. right. now left.
    + intros param Hin _. apply in_or_app. now left.
Qed.

(** The base URL of a constructed instance splits at a question mark,
    and what stands before it begins the URL that was supplied. *)
Lemma init_splits (url : pystr) :
  exists base_part query_part,
    split_once (u "?") (base_url (init url)) = Some (base_part, query_part) /\
    startswith base_part url = true.
Proof.
  unfold init. change (u "?") with [63%N].
  destruct (contains [63%N] url) eqn:Hq; cbn [base_url].
  - destruct (split_once_exists [63%N] url Hq) as (a & rest & Hs).
    exists a, (rest ++ u "&" ++ currency_params). split.
    + now apply split_once_char_app.
    + rewrite (split_once_char_eq _ _ _ _ Hs). apply startswith_self_app.
  - exists url, currency_params. split.
    + now apply (split_once_char_fresh 63).
    + rewrite <- (app_nil_r url) at 2. apply startswith_self_app.
Qed.

(** C9 (counterexample). For a constructed instance, whose base URL has
    a query string, and with no pagination control found,
    [get_next_page_url] still returns [None] when the page content is the
    empty string or [None], although the query-string fallback would
    build a URL. *)
Lemma constructed_scraper_none_on_empty_page :
  let w := world_serving [] in
  let x := init search_url in
  contains (u "?") (base_url x) = true /\
  next_from_pagination w (base_url x) (BeautifulSoup w []) = Returned None /\
  next_from_query (base_url x) 1
  = Some (u "https://www.ebay.com/sch/i.html?_nkw=phone&_ccy=1&_fmt=US&_dmd=1&_pgn=2") /\
  get_next_page_url w x (Some []) 1 = Returned None /\
  get_next_page_url w x None 1 = Returned None.
Proof.
  cbv zeta.
  split; [vm_compute; reflexivity|].
  split; [reflexivity|].
  split; [vm_compute; reflexivity|].
  split; reflexivity.
Qed.

(** C9 (amended). The constructor appends the currency parameters to
    the supplied URL, so the base URL of an instance always has a query
    string and [get_next_page_url] never reaches the final [return None]
    of its query-string branch.  When no pagination control is found,
    the method returns, for a page content that is not empty, a URL:
    the part of the base URL before its question mark (which begins the
    supplied URL), a question mark, and a query in which
    [_pgn=<current page + 1>] is a parameter and in which the other
    parameters of the base URL are kept; for an empty page content it
    returns [None]. *)
Theorem constructed_base_url_paginates (w : World) (url : pystr)
    (x : Scraper) (html_content : option pystr) (n : Z) :
  base_url x = base_url (init url) ->
  (forall h, html_content = Some h -> truthy h = true ->
     next_from_pagination w (base_url x) (BeautifulSoup w h)
     = Returned None) ->
  base_url x
  = url ++ (if contains (u "?") url then u "&" else u "?")
        ++ currency_params /\
  contains (u "?") (base_url x) = true /\
  exists base_part query_part new_query,
    split_once (u "?") (base_url x) = Some (base_part, query_part) /\
    startswith base_part url = true /\
    In (u "_pgn=" ++ str_of_int (n + 1)) new_query /\
    (forall param, In param (split_char 38 query_part) ->
                   contains (u "_pgn=") param = false ->
                   In param new_query) /\
    get_next_page_url w x html_content n
    = Returned (if truthy_opt html_content
                then Some (base_part ++ u "?" ++ join (u "&") new_query)
                else None).
Proof.
  intros Hx Hp.
  split.
  { rewrite Hx. unfold init. now destruct (contains (u "?") url). }
  split.
  { rewrite Hx. apply init_has_query. }
  destruct (init_splits url) as (base_part & query_part & Hs & Hstart).
  rewrite <- Hx in Hs.
  destruct (next_from_query_builds _ _ _ n Hs) as (new_query & Hr & Hin & Hkeep).
  exists base_part, query_part, new_query.
  split; [exact Hs|]. split; [exact Hstart|]. split; [exact Hin|].
  split; [exact Hkeep|].
  destruct html_content as [h|]; [|reflexivity].
  cbn [truthy_opt]. destruct (truthy h) eqn:Hh.
  - rewrite get_next_page_url_fallback by auto. now rewrite Hr.
  - unfold get_next_page_url. now rewrite Hh.
Qed.

(** The amended C9 at a search URL, on a page without pagination
    control. *)
Lemma constructed_base_url_paginates_witness :
  let w := world_serving some_page in
  let x := init search_url in
  base_url x = base_url (init search_url) /\
  (forall h, Some some_page = Some h -> truthy h = true ->
     next_from_pagination w (base_url x) (BeautifulSoup w h)
     = Returned None) /\
  base_url x
  = search_url ++ (if contains (u "?") search_url then u "&" else u "?")
        ++ currency_params /\
  contains (u "?") (base_url x) = true /\
  exists base_part query_part new_query,
    split_once (u "?") (base_url x) = Some (base_part, query_part) /\
    startswith base_part search_url = true /\
    In (u "_pgn=" ++ str_of_int (1 + 1)) new_query /\
    (forall param, In param (split_char 38 query_part) ->
                   contains (u "_pgn=") param = false ->
                   In param new_query) /\
    get_next_page_url w x (Some some_page) 1
    = Returned (if truthy_opt (Some some_page)
                then Some (base_part ++ u "?" ++ join (u "&") new_query)
                else None).
Proof.
  cbv zeta.
  split; [reflexivity|]. split; [intros h _ _; reflexivity|].
  apply (constructed_base_url_paginates (world_serving some_page)
           search_url (init search_url) (Some some_page) 1);
    [reflexivity|intros h _ _; reflexivity].
Defined.

(** The URL of that case. *)
Example next_url_of_search :
  get_next_page_url (world_serving some_page) (init search_url)
    (Some some_page) 1
  = Returned
      (Some (u "https://www.ebay.com/sch/i.html?_nkw=phone&_ccy=1&_fmt=US&_dmd=1&_pgn=2")).
Proof. vm_compute. reflexivity. Qed.

Example next_url_of_constructed :
  next_from_query (base_url (init (u "https://www.ebay.com/sch/i.html"))) 1
  = Some (u "https://www.ebay.com/sch/i.html?_ccy=1&_fmt=US&_dmd=1&_pgn=2").
Proof. vm_compute. reflexivity. Qed.

(** C3 (counterexample). A scraper constructed for a URL on page 5 asks,
    after its first page (the loop counts from 1), for page 2: the
    page-number parameter is not the one of the base URL incremented by
    one, which would be 6. *)
Lemma next_page_not_incremented :
  let x := init (u "https://www.ebay.com/sch/i.html?_pgn=5&_sop=12") in
  contains (u "_pgn=") (base_url x) = true /\
  next_from_pagination (world_serving some_page) (base_url x)
    (BeautifulSoup (world_serving some_page) some_page) = Returned None /\
  get_next_page_url (world_serving some_page) x (Some some_page) 1
  = Returned
      (Some (u "https://www.ebay.com/sch/i.html?_pgn=2&_sop=12&_ccy=1&_fmt=US&_dmd=1")) /\
  incremented_url (base_url x)
  = Some (u "https://www.ebay.com/sch/i.html?_pgn=6&_sop=12&_ccy=1&_fmt=US&_dmd=1") /\
  get_next_page_url (world_serving some_page) x (Some some_page) 1
  <> Returned (incremented_url (base_url x)).
Proof.
  cbv zeta.
  split; [vm_compute; reflexivity|].
  split; [vm_compute; reflexivity|].
  split; [vm_compute; reflexivity|].
  split; [vm_compute; reflexivity|].
  vm_compute. discriminate.
Qed.

(** C3 (amended). When the page is not empty and shows no pagination
    control, and the query string of the base URL has a page-number
    parameter, [get_next_page_url] returns the base URL with the value
    of the page-number parameter replaced by the current page number
    plus one, every other parameter keeping its value and its place;
    this is stated for query strings in which only page-number
    parameters contain the text [_pgn=]. *)
Theorem next_page_sets_page_number (w : World) (x : Scraper) (h : pystr)
    (n : Z) (base_part query_part : pystr) :
  truthy h = true ->
  next_from_pagination w (base_url x) (BeautifulSoup w h) = Returned None ->
  split_once (u "?") (base_url x) = Some (base_part, query_part) ->
  contains (u "_pgn=") query_part = true ->
  (forall param, In param (split_char 38 query_part) ->
                 contains (u "_pgn=") param = true ->
                 startswith (u "_pgn=") param = true) ->
  get_next_page_url w x (Some h) n
  = Returned
      (Some (base_part ++ u "?"
               ++ join (u "&")
                    (map (set_page_param n) (split_char 38 query_part)))).
Proof.
  intros Hh Hp Hs Hq Hparams.
  rewrite get_next_page_url_fallback by assumption.
  unfold next_from_query.
  rewrite (split_once_contains _ _ _ _ Hs), Hs, Hq.
  do 5 f_equal. apply map_ext_in. intros param Hin.
  unfold set_page_param.
  destruct (contains (u "_pgn=") param) eqn:Hc.
  - now rewrite (Hparams param Hin Hc).
  - destruct (startswith (u "_pgn=") param) eqn:Hsw; [|reflexivity].
    apply startswith_contains in Hsw. congruence.
Qed.

(** The amended C3 at the scenario of the specification: page 2 of
    [.../i.html?_pgn=2&_sop=12]. *)
Lemma next_page_sets_page_number_witness :
  let x := with_base_url (u "https://www.ebay.com/sch/i.html?_pgn=2&_sop=12") in
  truthy some_page = true /\
  next_from_pagination (world_serving some_page) (base_url x)
    (BeautifulSoup (world_serving some_page) some_page) = Returned None /\
  split_once (u "?") (base_url x)
  = Some (u "https://www.ebay.com/sch/i.html", u "_pgn=2&_sop=12") /\
  contains (u "_pgn=") (u "_pgn=2&_sop=12") = true /\
  (forall param, In param (split_char 38 (u "_pgn=2&_sop=12")) ->
                 contains (u "_pgn=") param = true ->
                 startswith (u "_pgn=") param = true) /\
  get_next_page_url (world_serving some_page) x (Some some_page) 2
  = Returned (Some (u "https://www.ebay.com/sch/i.html?_pgn=3&_sop=12")).
Proof.
  cbv zeta.
  assert (Hparams :
    forall param, In param (split_char 38 (u "_pgn=2&_sop=12")) ->
                  contains (u "_pgn=") param = true ->
                  startswith (u "_pgn=") param = true).
  { intros param [<-|[<-|[]]]; vm_compute; intros H;
      [reflexivity|discriminate]. }
  split; [reflexivity|]. split; [reflexivity|].
  split; [vm_compute; reflexivity|]. split; [vm_compute; reflexivity|].
  split; [exact Hparams|].
  exact (next_page_sets_page_number (world_serving some_page)
           (with_base_url (u "https://www.ebay.com/sch/i.html?_pgn=2&_sop=12"))
           some_page 2
           (u "https://www.ebay.com/sch/i.html") (u "_pgn=2&_sop=12")
           eq_refl eq_refl eq_refl eq_refl Hparams).
Defined.

(** The same for an instance made by the constructor. *)
Example next_url_of_constructed_page_2 :
  next_from_query
    (base_url (init (u "https://www.ebay.com/sch/i.html?_pgn=2&_sop=12"))) 2
  = Some (u "https://www.ebay.com/sch/i.html?_pgn=3&_sop=12&_ccy=1&_fmt=US&_dmd=1").
Proof. vm_compute. reflexivity. Qed.

(** ** Claims on the extractor *)

Lemma extract_item_fst (w : World) (c : Container) (s : Sys) :
  fst (extract_item w c s) =
  if retained c then
    match href c with
    | Some url =>
        Some {| title := item_title c;
                price := fst (extract_price w (price_elem c) s);
                product_url := url;
                image_url := item_image c |}
    | None => None
    end
  else None.
Proof.
  unfold extract_item, retained, is_filler, has_url, href, item_title,
    item_image.
  destruct (match title_elem c with
            | Some t => contains (u "Shop on eBay") (text t)
            | None => false
            end); [reflexivity|].
  cbn [negb andb]. unfold bind.
  destruct (extract_price w (price_elem c) s) as [pr s'].
  cbn [fst].
  destruct (match link_elem c with
            | Some l => attr (u "href") l
            | None => None
            end) as [url|]; [|reflexivity].
  cbn [truthy_opt]. destruct (truthy url); reflexivity.
Qed.

Lemma parse_containers_urls (w : World) (cs : list Container)
    (acc : list Product) (s : Sys) :
  map product_url (fst (parse_containers w cs acc s))
  = map product_url acc ++ kept_urls cs.
Proof.
  revert acc s. induction cs as [|c rest IH]; intros acc s.
  - cbn. now rewrite app_nil_r.
  - cbn [parse_containers]. unfold bind.
    pose proof (extract_item_fst w c s) as Hc.
    destruct (extract_item w c s) as [r s']. cbn [fst] in Hc.
    rewrite IH. cbn [kept_urls flat_map]. fold (kept_urls rest).
    subst r. destruct (retained c); [|reflexivity].
    destruct (href c) as [url|]; [|reflexivity].
    rewrite map_app. cbn [map product_url]. now rewrite <- app_assoc.
Qed.

(** C7 (counterexample). The filler item has a URL and is left out. *)
Lemma filler_item_with_url_excluded :
  href filler_item = Some (u "https://www.ebay.com/itm/123") /\
  has_url filler_item = true /\
  fst (extract_item failing_world filler_item (fresh search_url)) = None /\
  fst (parse_containers failing_world [filler_item] [] (fresh search_url)) = [].
Proof. repeat split; vm_compute; reflexivity. Qed.

(** C7 (amended). The extractor includes an item exactly when it is not
    the site's filler item ("Shop on eBay" in its title) and its link
    has a non-empty target.  An included item carries that target as its
    URL; its title is the trimmed title text or ["No Title"] when the
    title element is missing, its price is ["No Price"] when the price
    element is missing, and its image is absent when the container holds
    no image element at all.  The page's output lists the included items
    in page order. *)
Theorem extractor_keeps_items_with_url (w : World) :
  (forall c s,
     match fst (extract_item w c s) with
     | Some p =>
         retained c = true /\
         href c = Some (product_url p) /\
         title p = item_title c /\
         match title_elem c with
         | None => title p = u "No Title"
         | Some _ => True
         end /\
         match price_elem c with
         | None => price p = u "No Price"
         | Some _ => True
         end /\
         match image_elem c, picture_elem c, all_imgs c with
         | None, None, [] => image_url p = None
         | _, _, _ => True
         end
     | None => retained c = false
     end) /\
  (forall cs s,
     map product_url (fst (parse_containers w cs [] s)) = kept_urls cs) /\
  (forall h s,
     parse_product_listings w (Some h) s
     = if truthy h then parse_containers w (s_items (BeautifulSoup w h)) [] s
       else ([], s)).
Proof.
  split; [|split].
  - intros c s. rewrite extract_item_fst.
    destruct (retained c) eqn:Hr; [|reflexivity].
    destruct (href c) as [url|] eqn:Hu.
    + cbn [product_url title price image_url].
      split; [reflexivity|]. split; [reflexivity|]. split; [reflexivity|].
      split; [|split].
      * unfold item_title. destruct (title_elem c); [exact I|reflexivity].
      * destruct (price_elem c); [exact I|reflexivity].
      * unfold item_image.
        destruct (image_elem c); [exact I|].
        destruct (picture_elem c); [exact I|].
        destruct (all_imgs c); [reflexivity|exact I].
    + unfold retained, has_url in Hr. rewrite Hu in Hr.
      cbn [truthy_opt] in Hr. now rewrite andb_false_r in Hr.
  - intros cs s. now rewrite parse_containers_urls.
  - intros h s. cbn [parse_product_listings].
    destruct (truthy h); reflexivity.
Qed.

Example bare_item_kept :
  fst (extract_item failing_world bare_item (fresh search_url))
  = Some {| title := u "No Title"; price := u "No Price";
            product_url := u "https://www.ebay.com/itm/7";
            image_url := None |}.
Proof. vm_compute. reflexivity. Qed.

(** ** What the methods leave untouched *)

Lemma preserves_ret {A} (a : A) : preserves (ret a).
Proof. intros s. cbn. auto. Qed.

Lemma preserves_bind {A B} (c : M A) (k : A -> M B) :
  preserves c -> (forall a, preserves (k a)) -> preserves (bind c k).
Proof.
  intros Hc Hk s. unfold bind.
  specialize (Hc s). destruct (c s) as [a s']. cbn [snd] in Hc.
  destruct Hc as (Hp & Hb & Hr). destruct (Hk a s') as (Hp' & Hb' & Hr').
  repeat split; congruence.
Qed.

Lemma preserves_add_status_update (w : World) (message : pystr) :
  preserves (add_status_update w message).
Proof. intros s. cbn. auto. Qed.

Lemma preserves_request (w : World) (url : pystr) : preserves (request w url).
Proof. intros s. cbn. auto. Qed.

Lemma preserves_uniform (w : World) (a b : float) : preserves (uniform w a b).
Proof. intros s. cbn. auto. Qed.

Lemma preserves_get_page_from (w : World) (n : nat) (attempt : Z)
    (url : pystr) :
  preserves (get_page_from w n attempt url).
Proof.
  revert attempt. induction n as [|n IH]; intros attempt;
    cbn [get_page_from]; [apply preserves_ret|].
  apply preserves_bind; [apply preserves_request|].
  intros [body|e]; [apply preserves_ret|].
  apply preserves_bind; [apply preserves_add_status_update|]. intros _.
  destruct (attempt <? max_retries - 1)%Z.
  - apply preserves_bind; [apply preserves_uniform|]. intros j.
    apply preserves_bind; [apply preserves_add_status_update|]. intros _.
    apply IH.
  - apply preserves_bind; [apply preserves_add_status_update|]. intros _.
    apply preserves_ret.
Qed.

Lemma preserves_get_page (w : World) (url : pystr) : preserves (get_page w url).
Proof. apply preserves_get_page_from. Qed.

Lemma preserves_extract_price (w : World) (price_elem : option Tag) :
  preserves (extract_price w price_elem).
Proof.
  unfold extract_price. destruct price_elem as [elem|]; [|apply preserves_ret].
  cbv zeta.
  repeat match goal with
         | |- preserves (if ?b then _ else _) => destruct b
         | |- preserves (ret _) => apply preserves_ret
         | |- preserves (bind _ _) =>
             apply preserves_bind;
             [apply preserves_add_status_update|intros _]
         end.
Qed.

Lemma preserves_extract_item (w : World) (c : Container) :
  preserves (extract_item w c).
Proof.
  unfold extract_item.
  destruct (match title_elem c with
            | Some t => contains (u "Shop on eBay") (text t)
            | None => false
            end); [apply preserves_ret|].
  apply preserves_bind; [apply preserves_extract_price|]. intros pr.
  destruct (match link_elem c with
            | Some l => attr (u "href") l
            | None => None
            end) as [url|]; [|apply preserves_ret].
  destruct (truthy url); apply preserves_ret.
Qed.

Lemma preserves_parse_containers (w : World) (cs : list Container)
    (acc : list Product) :
  preserves (parse_containers w cs acc).
Proof.
  revert acc. induction cs as [|c rest IH]; intros acc;
    cbn [parse_containers]; [apply preserves_ret|].
  apply preserves_bind; [apply preserves_extract_item|]. intros r. apply IH.
Qed.

Lemma preserves_parse_product_listings (w : World) (html : option pystr) :
  preserves (parse_product_listings w html).
Proof.
  destruct html as [h|]; cbn [parse_product_listings]; [|apply preserves_ret].
  destruct (truthy h); [apply preserves_parse_containers|apply preserves_ret].
Qed.

(** ** Running the fetcher and the loop *)

Lemma add_status_update_run (w : World) (message : pystr) (s : Sys) :
  add_status_update w message s = (tt, logged w message s).
Proof.
  unfold logged. destruct (add_status_update w message s) as [[] s'].
  reflexivity.
Qed.

Lemma logged_status (w : World) (message : pystr) (s : Sys) :
  status_updates (self (logged w message s))
  = status_updates (self s) ++ [stamped w s 0 message].
Proof. reflexivity. Qed.

Lemma logged_products (w : World) (message : pystr) (s : Sys) :
  products (self (logged w message s)) = products (self s).
Proof. reflexivity. Qed.

Ltac run_fetch :=
  cbv beta iota zeta delta
    [get_page_from bind ret request add_status_update read_clock
     update_self uniform set_status_updates
     self clock_ix request_ix random_ix status_updates products base_url
     is_running progress fst snd].

(** Three failed attempts in a row: [get_page] returns [None] and the
    log has gained the six entries of [failure_entries]. *)
Lemma get_page_three_failures (w : World) (url : pystr) (s : Sys)
    (e0 e1 e2 : pystr) :
  http_get w (request_ix s) url = RequestException e0 ->
  http_get w (S (request_ix s)) url = RequestException e1 ->
  http_get w (S (S (request_ix s))) url = RequestException e2 ->
  get_page w url s =
  (None,
   {| self := set_status_updates
                (status_updates (self s) ++ failure_entries w s url e0 e1 e2)
                (self s);
      clock_ix := 6 + clock_ix s;
      request_ix := 3 + request_ix s;
      random_ix := 2 + random_ix s |}).
Proof.
  intros H0 H1 H2. destruct s as [[b ps log r pg] ci ri rni].
  cbn [self request_ix clock_ix random_ix status_updates] in *.
  unfold get_page. change (Z.to_nat max_retries) with 3%nat.
  run_fetch. rewrite H0. run_fetch.
  change ((0 <? max_retries - 1)%Z) with true. run_fetch.
  rewrite H1. run_fetch.
  change ((0 + 1 <? max_retries - 1)%Z) with true. run_fetch.
  rewrite H2. run_fetch.
  change ((0 + 1 + 1 <? max_retries - 1)%Z) with false. run_fetch.
  rewrite <- !app_assoc. reflexivity.
Qed.

(** Once its loop has ended, [scrape] returns, the products collected
    or [None], and leaves the instance not running. *)
Lemma scrape_stops_running (w : World) (fuel : nat) (max_pages : option Z)
    (s s' : Sys) (r : option (list Product)) :
  scrape w fuel max_pages s = (Some r, s') ->
  is_running (self s') = false /\
  match r with
  | Some ps => ps = products (self s')
  | None => True
  end.
Proof.
  unfold scrape, bind.
  destruct (update_self _ s) as [[] s1].
  destruct (get_self s1) as [x s2].
  destruct (add_status_update w _ s2) as [[] s3].
  destruct (add_status_update w _ s3) as [[] s4].
  destruct (scrape_loop w fuel max_pages (Some (base_url x)) 1 s4)
    as [[ex|] s5]; [|discriminate].
  assert (Hend : forall s9 : Sys,
            (let '(a, t) := get_self s9 in
             let '(_, t') := update_self (set_is_running false) t in
             ret (Some (Some (products a))) t') = (Some r, s') ->
            is_running (self s') = false /\
            match r with
            | Some ps => ps = products (self s')
            | None => True
            end).
  { intros [x9 c9 r9 n9]. cbn. intros H. injection H as <- <-.
    cbn. auto. }
  assert (Hlive : forall s6 : Sys,
            (let '(running, t) := read_is_running w s6 in
             let '(_, t') :=
               (if running then ret tt
                else add_status_update w (u "Scrape was stopped manually.")) t
             in
             let '(a, t'') := get_self t' in
             let '(_, t3) := update_self (set_is_running false) t'' in
             ret (Some (Some (products a))) t3) = (Some r, s') ->
            is_running (self s') = false /\
            match r with
            | Some ps => ps = products (self s')
            | None => True
            end).
  { intros s6. destruct (read_is_running w s6) as [[|] s7].
    - cbn [ret]. apply Hend.
    - destruct (add_status_update w _ s7) as [[] s8]. apply Hend. }
  destruct ex;
    try (destruct (get_self s5) as [x5 s6];
         destruct (add_status_update w _ s6) as [[] s7]; apply Hlive).
  destruct (add_status_update w _ s5) as [[] s6].
  destruct s6 as [x6 c6 r6 n6]. cbn. intros H. injection H as <- <-.
  cbn. auto.
Qed.

(** The first steps of one iteration of the loop, while the scraper is
    running and has a URL: the page is announced and fetched; then the
    loop ends at once when the fetch gave nothing, or when the page holds
    no product. *)
Lemma scrape_loop_exits (w : World) (fuel : nat) (max_pages : option Z)
    (url : pystr) (page_number : Z) (s s2 : Sys)
    (html_content : option pystr) :
  truthy url = true ->
  stop_requested w (clock_ix s) = false ->
  is_running (self s) = true ->
  get_page w url (logged w (scraping_page page_number) s)
  = (html_content, s2) ->
  (truthy_opt html_content = false ->
   scrape_loop w (S fuel) max_pages (Some url) page_number s
   = (Some FetchFailed, logged w fetch_failed s2)) /\
  (forall s3,
     truthy_opt html_content = true ->
     parse_product_listings w html_content s2 = ([], s3) ->
     scrape_loop w (S fuel) max_pages (Some url) page_number s
     = (Some NoProducts, logged w (no_products page_number) s3)).
Proof.
  intros Hurl Hstop Hrun Hget.
  split; [intros Hnone|intros s3 Hsome Hparse];
    cbn [scrape_loop]; unfold bind at 1; unfold read_is_running;
    rewrite Hstop, Hrun; cbn [truthy_opt]; rewrite Hurl; cbn [andb];
    unfold bind at 1; rewrite add_status_update_run;
    unfold bind at 1;
    change (u "Scraping page " ++ page_label page_number ++ u "...")
      with (scraping_page page_number);
    rewrite Hget.
  - rewrite Hnone. unfold bind at 1. fold fetch_failed.
    rewrite add_status_update_run. reflexivity.
  - rewrite Hsome. unfold bind at 1. rewrite Hparse.
    unfold bind at 1.
    change (u "No products found on page " ++ page_label page_number
              ++ u ". Stopping.") with (no_products page_number).
    rewrite add_status_update_run. reflexivity.
Qed.

(** ** Claims on the fetcher and the job *)

(** C5 (counterexample). With every request failing, [get_page] returns
    [None] and the log gains six entries: three error entries, two retry
    entries and one give-up entry; not three retry entries, and not four
    entries in all. *)
Lemma three_failures_log_six_entries :
  let r := get_page failing_world search_url (fresh search_url) in
  let log := status_updates (self (snd r)) in
  fst r = None /\
  List.length log = 6%nat /\
  List.length (filter is_error_entry log) = 3%nat /\
  List.length (filter is_retry_entry log) = 2%nat /\
  List.length (filter is_max_retries_entry log) = 1%nat /\
  List.length (filter is_retry_entry log) <> 3%nat /\
  List.length log <> (3 + 1)%nat.
Proof.
  cbv zeta.
  split; [vm_compute; reflexivity|].
  split; [vm_compute; reflexivity|].
  split; [vm_compute; reflexivity|].
  split; [vm_compute; reflexivity|].
  split; [vm_compute; reflexivity|].
  split; vm_compute; discriminate.
Qed.

(** C5 (amended). When fetching a URL fails on three consecutive
    attempts, [get_page] returns [None] rather than raising, and the
    status log gains exactly six entries for that fetch: an error entry
    for each of the three attempts, a retry entry after the first and
    after the second, and one give-up entry.  The loop of the job then
    logs that the page could not be fetched and stops, with the
    products collected so far unchanged. *)
Theorem three_failures_return_none (w : World) (fuel : nat)
    (max_pages : option Z) (url : pystr) (page_number : Z) (s : Sys)
    (e0 e1 e2 : pystr) :
  truthy url = true ->
  stop_requested w (clock_ix s) = false ->
  is_running (self s) = true ->
  http_get w (request_ix s) url = RequestException e0 ->
  http_get w (S (request_ix s)) url = RequestException e1 ->
  http_get w (S (S (request_ix s))) url = RequestException e2 ->
  fst (get_page w url s) = None /\
  status_updates (self (snd (get_page w url s)))
  = status_updates (self s) ++ failure_entries w s url e0 e1 e2 /\
  exists s',
    scrape_loop w (S fuel) max_pages (Some url) page_number s
    = (Some FetchFailed, s') /\
    status_updates (self s')
    = status_updates (self s)
      ++ [stamped w s 0 (scraping_page page_number)]
      ++ failure_entries w (logged w (scraping_page page_number) s)
           url e0 e1 e2
      ++ [stamped w s 7 fetch_failed] /\
    products (self s') = products (self s).
Proof.
  intros Hurl Hstop Hrun H0 H1 H2.
  rewrite (get_page_three_failures w url s e0 e1 e2 H0 H1 H2).
  split; [reflexivity|]. split; [reflexivity|].
  pose proof (get_page_three_failures w url
                (logged w (scraping_page page_number) s) e0 e1 e2 H0 H1 H2)
    as Hget.
  destruct (scrape_loop_exits w fuel max_pages url page_number s _ None
              Hurl Hstop Hrun Hget) as [Hfail _].
  eexists. split; [apply Hfail; reflexivity|]. split.
  - rewrite logged_status. cbn [self status_updates set_status_updates].
    rewrite logged_status, <- !app_assoc. reflexivity.
  - reflexivity.
Qed.

(** The amended C5 in a world where every request times out. *)
Lemma three_failures_return_none_witness :
  let w := failing_world in
  let s := running search_url in
  truthy search_url = true /\
  stop_requested w (clock_ix s) = false /\
  is_running (self s) = true /\
  http_get w (request_ix s) search_url = RequestException (u "timed out") /\
  http_get w (S (request_ix s)) search_url = RequestException (u "timed out") /\
  http_get w (S (S (request_ix s))) search_url
  = RequestException (u "timed out") /\
  fst (get_page w search_url s) = None /\
  status_updates (self (snd (get_page w search_url s)))
  = status_updates (self s)
    ++ failure_entries w s search_url (u "timed out") (u "timed out")
         (u "timed out") /\
  exists s',
    scrape_loop w 1 None (Some search_url) 2 s = (Some FetchFailed, s') /\
    status_updates (self s')
    = status_updates (self s)
      ++ [stamped w s 0 (scraping_page 2)]
      ++ failure_entries w (logged w (scraping_page 2) s) search_url
           (u "timed out") (u "timed out") (u "timed out")
      ++ [stamped w s 7 fetch_failed] /\
    products (self s') = products (self s).
Proof.
  cbv zeta.
  split; [reflexivity|]. split; [reflexivity|]. split; [reflexivity|].
  split; [reflexivity|]. split; [reflexivity|]. split; [reflexivity|].
  exact (three_failures_return_none failing_world 0 None search_url 2
           (running search_url) (u "timed out") (u "timed out")
           (u "timed out") eq_refl eq_refl eq_refl eq_refl eq_refl eq_refl).
Defined.

(** C6 (counterexample). A request that succeeds with an empty body
    is a fetched page that yields zero items ([get_page] returns its
    text, the extractor returns no product for it), yet the loop takes
    the branch of a failed fetch: the log has no "No products" entry. *)
Lemma empty_body_is_fetch_failure :
  let w := world_serving [] in
  let s := running search_url in
  let r := scrape_loop w 1 None (Some search_url) 2 s in
  fst (get_page w search_url s) = Some [] /\
  fst (parse_product_listings w (Some []) s) = [] /\
  fst r = Some FetchFailed /\
  existsb is_no_products_entry (status_updates (self (snd r))) = false /\
  existsb (contains fetch_failed) (status_updates (self (snd r))) = true.
Proof.
  cbv zeta. repeat split; vm_compute; reflexivity.
Qed.

(** C6 (amended). When a fetched page with non-empty content yields zero
    extracted items, the loop stops normally: it ends through the "no
    products" exit, the status log gains the "No products found on page
    N. Stopping." entry for that page, and the products accumulated from
    prior pages are unchanged. *)
Theorem empty_page_ends_scrape (w : World) (fuel : nat)
    (max_pages : option Z) (url : pystr) (page_number : Z) (s s2 s3 : Sys)
    (body : pystr) :
  truthy url = true ->
  stop_requested w (clock_ix s) = false ->
  is_running (self s) = true ->
  get_page w url (logged w (scraping_page page_number) s) = (Some body, s2) ->
  truthy body = true ->
  parse_product_listings w (Some body) s2 = ([], s3) ->
  exists s',
    scrape_loop w (S fuel) max_pages (Some url) page_number s
    = (Some NoProducts, s') /\
    status_updates (self s')
    = status_updates (self s3) ++ [stamped w s3 0 (no_products page_number)] /\
    is_no_products_entry (stamped w s3 0 (no_products page_number)) = true /\
    products (self s') = products (self s).
Proof.
  intros Hurl Hstop Hrun Hget Hbody Hparse.
  destruct (scrape_loop_exits w fuel max_pages url page_number s s2
              (Some body) Hurl Hstop Hrun Hget) as [_ Hnone].
  exists (logged w (no_products page_number) s3).
  split; [now apply Hnone|]. split; [apply logged_status|]. split.
  - unfold is_no_products_entry, stamped, no_products.
    apply contains_app_r, contains_app_r, contains_app_r, contains_prefix.
  - rewrite logged_products.
    pose proof (preserves_parse_product_listings w (Some body) s2) as (Hp & _).
    rewrite Hparse in Hp. cbn [snd] in Hp. rewrite Hp.
    pose proof (preserves_get_page w url
                  (logged w (scraping_page page_number) s)) as (Hg & _).
    rewrite Hget in Hg. cbn [snd] in Hg. rewrite Hg.
    apply logged_products.
Qed.

(** The amended C6 on a page without items, with one product already
    collected. *)
Lemma empty_page_ends_scrape_witness :
  let w := world_serving some_page in
  let s := running search_url in
  let s2 := snd (get_page w search_url (logged w (scraping_page 2) s)) in
  truthy search_url = true /\
  stop_requested w (clock_ix s) = false /\
  is_running (self s) = true /\
  get_page w search_url (logged w (scraping_page 2) s) = (Some some_page, s2) /\
  truthy some_page = true /\
  parse_product_listings w (Some some_page) s2 = ([], s2) /\
  exists s',
    scrape_loop w 1 None (Some search_url) 2 s = (Some NoProducts, s') /\
    status_updates (self s')
    = status_updates (self s2) ++ [stamped w s2 0 (no_products 2)] /\
    is_no_products_entry (stamped w s2 0 (no_products 2)) = true /\
    products (self s') = [a_product].
Proof.
  cbv zeta.
  split; [reflexivity|]. split; [reflexivity|]. split; [reflexivity|].
  split; [reflexivity|]. split; [reflexivity|]. split; [reflexivity|].
  exact (empty_page_ends_scrape (world_serving some_page) 0 None search_url 2
           (running search_url) _ _ some_page
           eq_refl eq_refl eq_refl eq_refl eq_refl eq_refl).
Defined.

(** A whole run whose first page cannot be fetched. *)
Example scrape_first_page_unreachable :
  let r := scrape failing_world 1 (Some 3%Z) (fresh search_url) in
  fst r = Some (Some []) /\ is_running (self (snd r)) = false /\
  List.length (status_updates (self (snd r))) = 11%nat.
Proof. cbv zeta. repeat split; vm_compute; reflexivity. Qed.

(** ** The base URL is fixed by the constructor

    No method assigns [base_url]: after any run of [scrape] it is the one
    the constructor built. *)

Lemma keeps_ret {A} (a : A) : keeps_base_url (ret a).
Proof. intros s. reflexivity. Qed.

Lemma keeps_bind {A B} (c : M A) (k : A -> M B) :
  keeps_base_url c -> (forall a, keeps_base_url (k a)) ->
  keeps_base_url (bind c k).
Proof.
  intros Hc Hk s. unfold bind.
  specialize (Hc s). destruct (c s) as [a s']. cbn [snd] in Hc.
  rewrite (Hk a s'). exact Hc.
Qed.

Lemma keeps_of_preserves {A} (c : M A) : preserves c -> keeps_base_url c.
Proof. intros H s. apply H. Qed.

Lemma keeps_update_self (f : Scraper -> Scraper) :
  (forall x, base_url (f x) = base_url x) -> keeps_base_url (update_self f).
Proof. intros H s. cbn. apply H. Qed.

Lemma keeps_get_self : keeps_base_url get_self.
Proof. intros s. reflexivity. Qed.

Lemma keeps_read_is_running (w : World) : keeps_base_url (read_is_running w).
Proof.
  intros s. unfold read_is_running.
  destruct (stop_requested w (clock_ix s)); reflexivity.
Qed.

Ltac keeps_step :=
  match goal with
  | |- keeps_base_url (ret _) => apply keeps_ret
  | |- keeps_base_url (add_status_update _ _) =>
      apply keeps_of_preserves, preserves_add_status_update
  | |- keeps_base_url (uniform _ _ _) =>
      apply keeps_of_preserves, preserves_uniform
  | |- keeps_base_url (get_page _ _) =>
      apply keeps_of_preserves, preserves_get_page
  | |- keeps_base_url (parse_product_listings _ _) =>
      apply keeps_of_preserves, preserves_parse_product_listings
  | |- keeps_base_url get_self => apply keeps_get_self
  | |- keeps_base_url (read_is_running _) => apply keeps_read_is_running
  | |- keeps_base_url (update_self _) =>
      apply keeps_update_self; intros ?; reflexivity
  | |- keeps_base_url (bind _ _) => apply keeps_bind; [|intros ?]
  | |- keeps_base_url (if ?b then _ else _) => destruct b
  | |- keeps_base_url (match ?l with [] => _ | _ :: _ => _ end) => destruct l
  | |- keeps_base_url (match ?o with Returned _ => _ | Raised _ => _ end) =>
      destruct o
  end.

Lemma keeps_scrape_loop (w : World) (fuel : nat) (max_pages : option Z)
    (current_url : option pystr) (page_number : Z) :
  keeps_base_url (scrape_loop w fuel max_pages current_url page_number).
Proof.
  revert current_url page_number.
  induction fuel as [|fuel IH]; intros current_url page_number;
    cbn [scrape_loop]; [apply keeps_ret|].
  repeat first [apply IH | keeps_step].
Qed.

Lemma scrape_keeps_base_url (w : World) (fuel : nat) (max_pages : option Z) :
  keeps_base_url (scrape w fuel max_pages).
Proof.
  unfold scrape.
  repeat first
    [ apply keeps_scrape_loop
    | keeps_step
    | match goal with
      | |- keeps_base_url (match ?r with Some _ => _ | None => _ end) =>
          destruct r as [[]|]
      end ].
Qed.

(** * Further properties of the methods *)

(** ** Relating the state after a method to the state before

    A relation that is reflexive and transitive, and that the readings
    of the outside sources and the assignments of the methods respect, is
    respected by the methods built from them. *)

Section Relating.

Variable R : Sys -> Sys -> Prop.
Hypothesis R_refl : forall s, R s s.
Hypothesis R_trans : forall a b c, R a b -> R b c -> R a c.

Variable w : World.
Hypothesis R_clock : relates R (read_clock w).
Hypothesis R_log :
  forall entry,
    relates R (update_self (fun x =>
      set_status_updates (status_updates x ++ [entry]) x)).
Hypothesis R_request : forall url, relates R (request w url).
Hypothesis R_uniform : forall a b, relates R (uniform w a b).
Hypothesis R_products :
  forall ps,
    relates R (update_self (fun x => set_products (products x ++ ps) x)).
Hypothesis R_running : relates R (read_is_running w).

Lemma relates_ret {A} (a : A) : relates R (ret a).
Proof. intros s. apply R_refl. Qed.

Lemma relates_bind {A B} (c : M A) (k : A -> M B) :
  relates R c -> (forall a, relates R (k a)) -> relates R (bind c k).
Proof.
  intros Hc Hk s. unfold bind.
  specialize (Hc s). destruct (c s) as [a s']. cbn [snd] in Hc.
  exact (R_trans _ _ _ Hc (Hk a s')).
Qed.

Lemma relates_get_self : relates R get_self.
Proof. intros s. apply R_refl. Qed.

Lemma relates_add_status_update (message : pystr) :
  relates R (add_status_update w message).
Proof.
  unfold add_status_update. apply relates_bind; [exact R_clock|].
  intros timestamp. apply R_log.
Qed.

Lemma relates_get_page_from (n : nat) (attempt : Z) (url : pystr) :
  relates R (get_page_from w n attempt url).
Proof.
  revert attempt. induction n as [|n IH]; intros attempt;
    cbn [get_page_from]; [apply relates_ret|].
  apply relates_bind; [apply R_request|].
  intros [body|e]; [apply relates_ret|].
  apply relates_bind; [apply relates_add_status_update|]. intros _.
  destruct (attempt <? max_retries - 1)%Z.
  - apply relates_bind; [apply R_uniform|]. intros j.
    apply relates_bind; [apply relates_add_status_update|]. intros _.
    apply IH.
  - apply relates_bind; [apply relates_add_status_update|]. intros _.
    apply relates_ret.
Qed.

Lemma relates_get_page (url : pystr) : relates R (get_page w url).
Proof. apply relates_get_page_from. Qed.

Lemma relates_extract_price (elem : option Tag) :
  relates R (extract_price w elem).
Proof.
  unfold extract_price. destruct elem as [elem|]; [|apply relates_ret].
  cbv zeta.
  repeat match goal with
         | |- relates R (if ?b then _ else _) => destruct b
         | |- relates R (ret _) => apply relates_ret
         | |- relates R (bind _ _) =>
             apply relates_bind;
             [apply relates_add_status_update|intros _]
         end.
Qed.

Lemma relates_extract_item (c : Container) : relates R (extract_item w c).
Proof.
  unfold extract_item.
  destruct (match title_elem c with
            | Some t => contains (u "Shop on eBay") (text t)
            | None => false
            end); [apply relates_ret|].
  apply relates_bind; [apply relates_extract_price|]. intros pr.
  destruct (match link_elem c with
            | Some l => attr (u "href") l
            | None => None
            end) as [url|]; [|apply relates_ret].
  destruct (truthy url); apply relates_ret.
Qed.

Lemma relates_parse_containers (cs : list Container) (acc : list Product) :
  relates R (parse_containers w cs acc).
Proof.
  revert acc. induction cs as [|c rest IH]; intros acc;
    cbn [parse_containers]; [apply relates_ret|].
  apply relates_bind; [apply relates_extract_item|]. intros r. apply IH.
Qed.

Lemma relates_parse_product_listings (html : option pystr) :
  relates R (parse_product_listings w html).
Proof.
  destruct html as [h|]; cbn [parse_product_listings]; [|apply relates_ret].
  destruct (truthy h); [apply relates_parse_containers|apply relates_ret].
Qed.

Lemma relates_scrape_loop (fuel : nat) (max_pages : option Z)
    (current_url : option pystr) (page_number : Z) :
  relates R (scrape_loop w fuel max_pages current_url page_number).
Proof.
  revert current_url page_number.
  induction fuel as [|fuel IH]; intros current_url page_number;
    cbn [scrape_loop]; [apply relates_ret|].
  repeat first
    [ apply IH
    | apply relates_ret
    | apply relates_add_status_update
    | apply relates_get_page
    | apply relates_parse_product_listings
    | apply relates_get_self
    | apply R_uniform
    | apply R_products
    | apply R_running
    | apply relates_bind; [|intros ?]
    | match goal with
      | |- relates R (if ?b then _ else _) => destruct b
      | |- relates R (match ?l with [] => _ | _ :: _ => _ end) => destruct l
      | |- relates R (match ?o with Returned _ => _ | Raised _ => _ end) =>
          destruct o
      end ].
Qed.

End Relating.

(** ** The relations the methods respect *)

Lemma log_extends_refl (s : Sys) : log_extends s s.
Proof. exists []. now rewrite app_nil_r. Qed.

Lemma log_extends_trans (a b c : Sys) :
  log_extends a b -> log_extends b c -> log_extends a c.
Proof.
  intros [l Hl] [l' Hl']. exists (l ++ l').
  now rewrite Hl', Hl, app_assoc.
Qed.

Lemma products_extend_refl (s : Sys) : products_extend s s.
Proof. exists []. now rewrite app_nil_r. Qed.

Lemma products_extend_trans (a b c : Sys) :
  products_extend a b -> products_extend b c -> products_extend a c.
Proof.
  intros [l Hl] [l' Hl']. exists (l ++ l').
  now rewrite Hl', Hl, app_assoc.
Qed.

Lemma only_log_changes_refl (s : Sys) : only_log_changes s s.
Proof. repeat split. Qed.

Lemma only_log_changes_trans (a b c : Sys) :
  only_log_changes a b -> only_log_changes b c -> only_log_changes a c.
Proof.
  intros (H1 & H2 & H3 & H4) (K1 & K2 & K3 & K4).
  repeat split; congruence.
Qed.

Lemma keeps_settings_refl (s : Sys) : keeps_settings s s.
Proof. split; reflexivity. Qed.

Lemma keeps_settings_trans (a b c : Sys) :
  keeps_settings a b -> keeps_settings b c -> keeps_settings a c.
Proof. intros [H1 H2] [K1 K2]. split; congruence. Qed.

Lemma offline_refl (s : Sys) : offline s s.
Proof. split; reflexivity. Qed.

Lemma offline_trans (a b c : Sys) :
  offline a b -> offline b c -> offline a c.
Proof. intros [H1 H2] [K1 K2]. split; congruence. Qed.

Lemma read_is_running_self (w : World) (s : Sys) :
  self (snd (read_is_running w s)) = self s \/
  self (snd (read_is_running w s)) = set_is_running false (self s).
Proof.
  unfold read_is_running. destruct (stop_requested w (clock_ix s));
    [now right|now left].
Qed.

Lemma read_is_running_counters (w : World) (s : Sys) :
  request_ix (snd (read_is_running w s)) = request_ix s /\
  random_ix (snd (read_is_running w s)) = random_ix s /\
  clock_ix (snd (read_is_running w s)) = clock_ix s.
Proof.
  unfold read_is_running. destruct (stop_requested w (clock_ix s));
    repeat split.
Qed.

(** A step that appends to a list or leaves it alone extends it. *)
Ltac extends_step :=
  unfold relates; intros; cbn; eexists;
  first [reflexivity | symmetry; apply app_nil_r].

(** A step that leaves the fields in question alone. *)
Ltac same_step := unfold relates; intros; cbn; repeat split.

(** The log only grows through the fetcher, the extractor and the
    loop. *)
Lemma get_page_log_extends (w : World) (url : pystr) :
  relates log_extends (get_page w url).
Proof.
  apply relates_get_page;
    [exact log_extends_refl|exact log_extends_trans|..]; extends_step.
Qed.

Lemma parse_product_listings_log_extends (w : World) (html : option pystr) :
  relates log_extends (parse_product_listings w html).
Proof.
  apply relates_parse_product_listings;
    [exact log_extends_refl|exact log_extends_trans|..]; extends_step.
Qed.

Lemma scrape_loop_log_extends (w : World) (fuel : nat)
    (max_pages : option Z) (current_url : option pystr) (page_number : Z) :
  relates log_extends (scrape_loop w fuel max_pages current_url page_number).
Proof.
  apply relates_scrape_loop;
    [exact log_extends_refl|exact log_extends_trans|..];
    try extends_step.
  intros s. exists [].
  destruct (read_is_running_self w s) as [-> | ->];
    now rewrite app_nil_r.
Qed.

Lemma scrape_loop_products_extend (w : World) (fuel : nat)
    (max_pages : option Z) (current_url : option pystr) (page_number : Z) :
  relates products_extend
    (scrape_loop w fuel max_pages current_url page_number).
Proof.
  apply relates_scrape_loop;
    [exact products_extend_refl|exact products_extend_trans|..];
    try extends_step.
  intros s. exists [].
  destruct (read_is_running_self w s) as [-> | ->];
    now rewrite app_nil_r.
Qed.

Lemma scrape_loop_keeps_settings (w : World) (fuel : nat)
    (max_pages : option Z) (current_url : option pystr) (page_number : Z) :
  relates keeps_settings
    (scrape_loop w fuel max_pages current_url page_number).
Proof.
  apply relates_scrape_loop;
    [exact keeps_settings_refl|exact keeps_settings_trans|..];
    try (same_step; fail).
  intros s. destruct (read_is_running_self w s) as [H | H];
    unfold keeps_settings; rewrite H; split; reflexivity.
Qed.

Lemma get_page_only_log_changes (w : World) (url : pystr) :
  relates only_log_changes (get_page w url).
Proof.
  apply relates_get_page;
    [exact only_log_changes_refl|exact only_log_changes_trans|..];
    same_step.
Qed.

Lemma parse_product_listings_only_log_changes (w : World)
    (html : option pystr) :
  relates only_log_changes (parse_product_listings w html).
Proof.
  apply relates_parse_product_listings;
    [exact only_log_changes_refl|exact only_log_changes_trans|..];
    same_step.
Qed.

Lemma parse_product_listings_offline (w : World) (html : option pystr) :
  relates offline (parse_product_listings w html).
Proof.
  apply relates_parse_product_listings;
    [exact offline_refl|exact offline_trans|..]; same_step.
Qed.

(** ** The fetcher *)

Lemma get_page_run (w : World) (url : pystr) (s : Sys) :
  let failures := failures_before w url (request_ix s) 3 in
  fst (get_page w url s) = first_fetched w url (request_ix s) 3 /\
  request_ix (snd (get_page w url s))
  = (Nat.min 3 (S failures) + request_ix s)%nat /\
  random_ix (snd (get_page w url s))
  = (Nat.min 2 failures + random_ix s)%nat /\
  List.length (status_updates (self (snd (get_page w url s))))
  = (List.length (status_updates (self s)) + 2 * failures)%nat.
Proof.
  destruct s as [[b ps log r pg] ci ri rni]. cbv zeta.
  cbn [self request_ix clock_ix random_ix status_updates
       first_fetched failures_before].
  unfold get_page. change (Z.to_nat max_retries) with 3%nat.
  run_fetch. destruct (http_get w ri url) as [body0|e0].
  { run_fetch. cbn. repeat split; lia. }
  run_fetch. change ((0 <? max_retries - 1)%Z) with true. run_fetch.
  destruct (http_get w (S ri) url) as [body1|e1].
  { run_fetch. cbn [Nat.min Nat.add Nat.mul].
    repeat split; rewrite ?length_app; cbn [List.length]; lia. }
  run_fetch. change ((0 + 1 <? max_retries - 1)%Z) with true. run_fetch.
  destruct (http_get w (S (S ri)) url) as [body2|e2].
  { run_fetch. cbn [Nat.min Nat.add Nat.mul].
    repeat split; rewrite ?length_app; cbn [List.length]; lia. }
  run_fetch. change ((0 + 1 + 1 <? max_retries - 1)%Z) with false. run_fetch.
  cbn [Nat.min Nat.add Nat.mul].
  repeat split; rewrite ?length_app; cbn [List.length]; lia.
Qed.

(** X1. [get_page] returns the body of the first of at most three
    requests that succeeds, and [None] when all three fail.  It issues
    one request more than the number of failures before that success
    (three at most), and writes two status entries for every failed
    attempt. *)
Theorem get_page_first_success (w : World) (url : pystr) (s : Sys) :
  let failures := failures_before w url (request_ix s) 3 in
  fst (get_page w url s) = first_fetched w url (request_ix s) 3 /\
  request_ix (snd (get_page w url s))
  = (Nat.min 3 (S failures) + request_ix s)%nat /\
  random_ix (snd (get_page w url s))
  = (Nat.min 2 failures + random_ix s)%nat /\
  List.length (status_updates (self (snd (get_page w url s))))
  = (List.length (status_updates (self s)) + 2 * failures)%nat.
Proof. apply get_page_run. Qed.

(** X2. [get_page] changes nothing of the instance but its log, and the
    log only grows: the products, the base URL, the running flag and the
    progress field are as before, and the old log is a prefix of the new
    one. *)
Theorem get_page_frame (w : World) (url : pystr) (s : Sys) :
  only_log_changes s (snd (get_page w url s)) /\
  log_extends s (snd (get_page w url s)).
Proof.
  split; [apply get_page_only_log_changes|apply get_page_log_extends].
Qed.

(** ** The extractor *)

Lemma lstrip_suffix (s : pystr) : exists a, s = a ++ lstrip s.
Proof.
  induction s as [|c s [a IH]]; [now exists []|].
  cbn [lstrip]. destruct (isspace c); [|now exists []].
  exists (c :: a). cbn [app]. now rewrite <- IH.
Qed.

(** [strip] keeps a contiguous part of the text. *)
Lemma strip_infix (s : pystr) : exists a b, s = a ++ strip s ++ b.
Proof.
  unfold strip. destruct (lstrip_suffix s) as [a Ha].
  destruct (lstrip_suffix (rev (lstrip s))) as [b Hb].
  exists a, (rev b). rewrite <- rev_app_distr, <- Hb, rev_involutive.
  exact Ha.
Qed.

Lemma contains_strip (p s : pystr) :
  contains p (strip s) = true -> contains p s = true.
Proof.
  intros H. destruct (strip_infix s) as (a & b & E). rewrite E.
  now apply contains_app_r, contains_app_l.
Qed.

Lemma extract_item_well_formed (w : World) (c : Container) (s : Sys)
    (p : Product) :
  fst (extract_item w c s) = Some p -> well_formed p.
Proof.
  rewrite extract_item_fst. unfold retained, has_url, is_filler, item_title.
  destruct (href c) as [url|]; cbn [truthy_opt].
  - destruct (title_elem c) as [t|].
    + destruct (contains (u "Shop on eBay") (text t)) eqn:Ht;
        [discriminate|].
      cbn [negb andb]. destruct (truthy url) eqn:Hu; [|discriminate].
      intros H. injection H as <-. split; [exact Hu|].
      cbn [title]. destruct (contains _ (strip (text t))) eqn:Hs;
        [|reflexivity].
      apply contains_strip in Hs. congruence.
    + cbn [negb andb]. destruct (truthy url) eqn:Hu; [|discriminate].
      intros H. injection H as <-. split; [exact Hu|reflexivity].
  - now rewrite andb_false_r.
Qed.

Lemma parse_containers_well_formed (w : World) (cs : list Container)
    (acc : list Product) (s : Sys) :
  Forall well_formed acc ->
  Forall well_formed (fst (parse_containers w cs acc s)) /\
  (List.length (fst (parse_containers w cs acc s))
   <= List.length acc + List.length cs)%nat.
Proof.
  revert acc s. induction cs as [|c rest IH]; intros acc s Hacc.
  - cbn. split; [exact Hacc|lia].
  - cbn [parse_containers]. unfold bind.
    pose proof (extract_item_well_formed w c s) as Hc.
    destruct (extract_item w c s) as [[p|] s']; cbn [fst] in Hc.
    + destruct (IH (acc ++ [p]) s') as [Hwf Hlen].
      { apply Forall_app. split; [exact Hacc|].
        constructor; [now apply Hc|constructor]. }
      split; [exact Hwf|]. rewrite length_app in Hlen. cbn in *. lia.
    + destruct (IH acc s' Hacc) as [Hwf Hlen].
      split; [exact Hwf|]. cbn [List.length]. lia.
Qed.

Lemma parse_product_listings_products (w : World) (html : option pystr)
    (s : Sys) :
  Forall well_formed (fst (parse_product_listings w html s)) /\
  (List.length (fst (parse_product_listings w html s))
   <= match html with
      | Some h => if truthy h then List.length (s_items (BeautifulSoup w h))
                  else 0
      | None => 0
      end)%nat.
Proof.
  destruct html as [h|]; cbn [parse_product_listings].
  - destruct (truthy h).
    + apply (parse_containers_well_formed w _ [] s). constructor.
    + cbn. split; [constructor|lia].
  - cbn. split; [constructor|lia].
Qed.

(** X3. Every product that [parse_product_listings] returns has a
    non-empty URL and a title without "Shop on eBay", and the page yields
    at most one product for each of its containers; nothing is returned
    for missing or empty content. *)
Theorem parsed_products_well_formed (w : World) (html : option pystr)
    (s : Sys) :
  Forall well_formed (fst (parse_product_listings w html s)) /\
  (List.length (fst (parse_product_listings w html s))
   <= match html with
      | Some h => if truthy h then List.length (s_items (BeautifulSoup w h))
                  else 0
      | None => 0
      end)%nat.
Proof. apply parse_product_listings_products. Qed.

(** X4. [parse_product_listings] works on the page it is given only: it
    issues no request and draws no random number, changes nothing of the
    instance but its log, and only appends to the log. *)
Theorem parse_product_listings_frame (w : World) (html : option pystr)
    (s : Sys) :
  offline s (snd (parse_product_listings w html s)) /\
  only_log_changes s (snd (parse_product_listings w html s)) /\
  log_extends s (snd (parse_product_listings w html s)).
Proof.
  split; [apply parse_product_listings_offline|].
  split; [apply parse_product_listings_only_log_changes
         |apply parse_product_listings_log_extends].
Qed.

Lemma extract_price_run (w : World) (elem : option Tag) (s : Sys) :
  match elem with
  | None => extract_price w elem s = (u "No Price", s)
  | Some e =>
      let old := cleaned_price e in
      if negb (contains US_prefix old || startswith (u "$") old)
         && has_currency old
      then extract_price w elem s
           = (convert_to_usd old,
              logged w (converted old (convert_to_usd old)) s)
      else snd (extract_price w elem s) = s
  end.
Proof.
  destruct elem as [e|]; [|reflexivity].
  unfold extract_price. fold (cleaned_price e). cbv zeta.
  destruct (contains US_prefix (cleaned_price e)
            || startswith (u "$") (cleaned_price e)); cbn [negb andb].
  - reflexivity.
  - destruct (has_currency (cleaned_price e)).
    + unfold bind. fold (converted (cleaned_price e)
                           (convert_to_usd (cleaned_price e))).
      rewrite add_status_update_run. reflexivity.
    + destruct (contains (u "$") (cleaned_price e)
                && negb (contains US_prefix (cleaned_price e)));
        reflexivity.
Qed.

(** X5. The price block writes a status entry exactly when it hands the
    price to [convert_to_usd], that is when the cleaned text is not
    already in US dollars and holds a symbol of the table; the entry
    records the text before and after.  In every other case, also
    without a price element, the state is left as it is. *)
Theorem extract_price_log (w : World) (elem : option Tag) (s : Sys) :
  match elem with
  | None => extract_price w elem s = (u "No Price", s)
  | Some e =>
      let old := cleaned_price e in
      if negb (contains US_prefix old || startswith (u "$") old)
         && has_currency old
      then extract_price w elem s
           = (convert_to_usd old,
              logged w (converted old (convert_to_usd old)) s)
      else snd (extract_price w elem s) = s
  end.
Proof. apply extract_price_run. Qed.

(** X6. When the cleaned price text holds a dollar sign and its first
    numeric run parses, the price of the listing begins with ["US "]:
    the text is reformatted as US dollars, converted from a currency of
    the table, or prefixed. *)
Theorem extract_price_dollar_prefixed (w : World) (e : Tag) (s : Sys)
    (amount : float) :
  contains (u "$") (cleaned_price e) = true ->
  parsed_amount (cleaned_price e) = Some amount ->
  startswith (u "US ") (fst (extract_price w (Some e) s)) = true.
Proof.
  intros Hd Ha.
  pose proof (extract_price_run w (Some e) s) as Hlog. cbv zeta in Hlog.
  unfold extract_price in *. fold (cleaned_price e) in *. cbv zeta in *.
  set (old := cleaned_price e) in *.
  destruct (contains US_prefix old || startswith (u "$") old) eqn:Hus;
    cbn [negb andb] in Hlog.
  - cbn [ret fst]. unfold standardize_usd.
    unfold parsed_amount in Ha.
    destruct (search_numeric old) as [price_value|]; [|discriminate].
    rewrite Ha. reflexivity.
  - apply orb_false_iff in Hus as [Hus _].
    destruct (has_currency old) eqn:Hc.
    + rewrite Hlog. cbn [fst].
      destruct (first_symbol_has_currency old Hc) as (sym & rate & Hf & _).
      rewrite convert_to_usd_closed. unfold to_canonical.
      rewrite Hf, Ha. reflexivity.
    + rewrite Hd, Hus. cbn [negb andb ret fst].
      apply startswith_self_app.
Qed.

(** X6 at the price text ["HK$78"]. *)
Lemma extract_price_dollar_prefixed_witness :
  contains (u "$") (cleaned_price (plain "HK$78")) = true /\
  parsed_amount (cleaned_price (plain "HK$78")) = Some (lit "78") /\
  startswith (u "US ")
    (fst (extract_price failing_world (Some (plain "HK$78"))
            (fresh search_url))) = true.
Proof.
  split; [vm_compute; reflexivity|]. split; [vm_compute; reflexivity|].
  apply (extract_price_dollar_prefixed failing_world (plain "HK$78")
           (fresh search_url) (lit "78"));
    vm_compute; reflexivity.
Defined.

(** ** The normaliser and the paginator *)

(** X7. A price text in which no symbol of the exchange-rate table
    occurs is returned by [convert_to_usd] as it is. *)
Theorem convert_to_usd_identity (price_str : pystr) :
  has_currency price_str = false -> convert_to_usd price_str = price_str.
Proof. apply convert_to_usd_without_currency. Qed.

(** X7 at a price in US dollars. *)
Lemma convert_to_usd_identity_witness :
  has_currency (u "$1,299.99") = false /\
  convert_to_usd (u "$1,299.99") = u "$1,299.99".
Proof.
  split; [vm_compute; reflexivity|].
  apply (convert_to_usd_identity (u "$1,299.99")).
  vm_compute; reflexivity.
Defined.

(** X8. The query-string fallback of [get_next_page_url] returns [None]
    exactly when the base URL has no question mark; otherwise it returns
    a URL in which the parameter [_pgn=<current page + 1>] occurs. *)
Theorem next_from_query_outcome (base : pystr) (n : Z) :
  match next_from_query base n with
  | Some r =>
      contains (u "?") base = true /\
      contains (u "_pgn=" ++ str_of_int (n + 1)) r = true
  | None => contains (u "?") base = false
  end.
Proof.
  unfold next_from_query.
  destruct (contains (u "?") base) eqn:Hq; [|reflexivity].
  destruct (split_once_exists (u "?") base Hq) as (base_part & query & ->).
  set (next := u "_pgn=" ++ str_of_int (n + 1)).
  assert (Hnext : contains next next = true).
  { rewrite <- (app_nil_r next) at 2. apply contains_prefix. }
  destruct (contains (u "_pgn=") query) eqn:Hpg.
  - split; [reflexivity|].
    apply contains_app_r, contains_app_r.
    destruct (split_char_keeps_occurrence 38 (u "_pgn=") query
                pgn_free_of_ampersand Hpg) as (p & Hin & Hp).
    apply contains_join with (p := next); [|exact Hnext].
    apply in_map_iff. exists p. now rewrite Hp.
  - split; [reflexivity|].
    apply contains_app_r, contains_app_r, Hnext.
Qed.

(** X9. The next-page URL that the query-string fallback builds for an
    instance made by the constructor still carries the currency
    parameters [_ccy=1&_fmt=US&_dmd=1] that the constructor added. *)
Theorem next_page_keeps_currency_params (url : pystr) (n : Z) :
  exists r,
    next_from_query (base_url (init url)) n = Some r /\
    contains currency_params r = true.
Proof.
  set (next := u "_pgn=" ++ str_of_int (n + 1)).
  set (f := fun param : pystr =>
              if contains (u "_pgn=") param then next else param).
  assert (Hmap : map f (split_char 38 currency_params)
                 = split_char 38 currency_params) by reflexivity.
  assert (Hjoin : join (u "&") (split_char 38 currency_params)
                  = currency_params) by reflexivity.
  unfold init. destruct (contains (u "?") url) eqn:Hq; cbn [base_url].
  - destruct (split_once_exists (u "?") url Hq) as (a & rest & Hs).
    apply (split_once_char_app 63 url (u "&" ++ currency_params)) in Hs.
    unfold next_from_query.
    rewrite (contains_app_l _ _ _ Hq).
    change (u "?") with [63%N]. rewrite Hs.
    fold next. fold f.
    destruct (contains (u "_pgn=") (rest ++ u "&" ++ currency_params)).
    + eexists. split; [reflexivity|].
      change (rest ++ u "&" ++ currency_params)
        with (rest ++ 38%N :: currency_params).
      rewrite split_char_app, map_app, Hmap, join_app.
      * rewrite Hjoin.
        apply contains_app_r, contains_app_r, contains_app_r,
          contains_app_r, contains_refl.
      * destruct (split_char_nonempty 38 rest) as (p & ps & ->).
        discriminate.
      * discriminate.
    + eexists. split; [reflexivity|].
      apply contains_app_l, contains_app_r, contains_app_r, contains_refl.
  - assert (Hs : split_once (u "?") (url ++ u "?" ++ currency_params)
                 = Some (url, currency_params))
      by (apply (split_once_char_fresh 63); exact Hq).
    unfold next_from_query.
    replace (contains (u "?") (url ++ u "?" ++ currency_params)) with true
      by (symmetry; apply contains_app_r, contains_prefix).
    rewrite Hs. fold next. fold f.
    destruct (contains (u "_pgn=") currency_params).
    + eexists. split; [reflexivity|].
      rewrite Hmap, Hjoin.
      apply contains_app_r, contains_app_r, contains_refl.
    + eexists. split; [reflexivity|].
      apply contains_app_l, contains_app_r, contains_app_r, contains_refl.
Qed.

(** ** Reasoning on the steps of a method *)

Lemma hoare_ret {A} (P : Sys -> Prop) (a : A) (Q : A -> Sys -> Prop) :
  (forall s, P s -> Q a s) -> hoare P (ret a) Q.
Proof. intros H s Hs. now apply H. Qed.

Lemma hoare_bind {A B} (P : Sys -> Prop) (c : M A) (k : A -> M B)
    (Q1 : A -> Sys -> Prop) (Q : B -> Sys -> Prop) :
  hoare P c Q1 -> (forall a, hoare (Q1 a) (k a) Q) -> hoare P (bind c k) Q.
Proof.
  intros Hc Hk s Hs. unfold bind.
  specialize (Hc s Hs). destruct (c s) as [a s']. now apply Hk.
Qed.

Lemma hoare_weaken {A} (P P' : Sys -> Prop) (c : M A)
    (Q Q' : A -> Sys -> Prop) :
  hoare P' c Q' -> (forall s, P s -> P' s) ->
  (forall a s, Q' a s -> Q a s) -> hoare P c Q.
Proof. intros H HP HQ s Hs. apply HQ, H, HP, Hs. Qed.

Lemma hoare_relates {A} (R : Sys -> Sys -> Prop) (P : Sys -> Prop)
    (c : M A) :
  relates R c -> (forall s s', R s s' -> P s -> P s') ->
  hoare P c (fun _ => P).
Proof. intros Hc HR s Hs. exact (HR _ _ (Hc s) Hs). Qed.

Lemma hoare_get_self (P : Sys -> Prop) :
  hoare P get_self (fun x s => P s /\ x = self s).
Proof. intros s Hs. now split. Qed.

Lemma add_status_update_only_log_changes (w : World) (message : pystr) :
  relates only_log_changes (add_status_update w message).
Proof.
  apply relates_add_status_update;
    [exact only_log_changes_trans|..]; same_step.
Qed.

(** ** The collected products are well formed *)

Lemma well_formed_stable (s s' : Sys) :
  only_log_changes s s' -> products_well_formed s -> products_well_formed s'.
Proof. intros (Hp & _) H. unfold products_well_formed. now rewrite Hp. Qed.

Lemma well_formed_read_is_running (w : World) :
  hoare products_well_formed (read_is_running w)
    (fun _ => products_well_formed).
Proof.
  intros s Hs. unfold products_well_formed.
  destruct (read_is_running_self w s) as [-> | ->]; exact Hs.
Qed.

Lemma well_formed_parse (w : World) (html : option pystr) :
  hoare products_well_formed (parse_product_listings w html)
    (fun page_products s =>
       products_well_formed s /\ Forall well_formed page_products).
Proof.
  intros s Hs. split.
  - exact (well_formed_stable _ _
             (parse_product_listings_only_log_changes w html s) Hs).
  - apply parse_product_listings_products.
Qed.

(** One step of a method that keeps the products well formed. *)
Ltac well_formed_step :=
  first
    [ solve [apply hoare_ret; intros; assumption]
    | apply well_formed_read_is_running
    | solve [apply (hoare_relates only_log_changes);
             [ first [ apply add_status_update_only_log_changes
                     | apply get_page_only_log_changes
                     | solve [same_step] ]
             | exact well_formed_stable ]] ].

Lemma scrape_loop_well_formed (w : World) (fuel : nat)
    (max_pages : option Z) (current_url : option pystr) (page_number : Z) :
  hoare products_well_formed
    (scrape_loop w fuel max_pages current_url page_number)
    (fun _ => products_well_formed).
Proof.
  revert current_url page_number.
  induction fuel as [|fuel IH]; intros current_url page_number;
    cbn [scrape_loop]; [well_formed_step|].
  eapply hoare_bind; [well_formed_step|intros running].
  destruct (truthy_opt current_url && running); [|well_formed_step].
  eapply hoare_bind; [well_formed_step|intros ?].
  eapply hoare_bind; [well_formed_step|intros html_content].
  destruct (truthy_opt html_content).
  - eapply hoare_bind; [apply well_formed_parse|intros page_products].
    destruct page_products as [|p page_products].
    + eapply hoare_bind; [|intros ?; well_formed_step].
      eapply hoare_weaken;
        [apply (hoare_relates only_log_changes);
         [apply add_status_update_only_log_changes|exact well_formed_stable]
        |intros s [Hs _]; exact Hs|intros; assumption].
    + eapply hoare_bind with (Q1 := fun _ => products_well_formed).
      { intros s [Hs Hpage]. cbn. apply Forall_app. now split. }
      intros ?.
      eapply hoare_bind; [apply hoare_get_self|intros x].
      eapply hoare_bind with (Q1 := fun _ => products_well_formed).
      { eapply hoare_weaken;
          [apply (hoare_relates only_log_changes);
           [apply add_status_update_only_log_changes
           |exact well_formed_stable]
          |intros s [Hs _]; exact Hs|intros; assumption]. }
      intros ?.
      eapply hoare_bind; [well_formed_step|intros delay].
      eapply hoare_bind; [well_formed_step|intros ?].
      destruct (max_pages_set max_pages && _).
      * eapply hoare_bind; [well_formed_step|intros ?; well_formed_step].
      * eapply hoare_bind; [apply hoare_get_self|intros x'].
        destruct (get_next_page_url w x' html_content page_number)
          as [next_url|e].
        -- eapply hoare_weaken;
             [apply IH|intros s [Hs _]; exact Hs|intros; assumption].
        -- apply hoare_ret. intros s [Hs _]. exact Hs.
  - eapply hoare_bind; [well_formed_step|intros ?; well_formed_step].
Qed.

(** ** The job *)

(** [scrape] is its loop between a prologue and one of two epilogues:
    the handler when an exception left the loop, the closing entries
    otherwise. *)
Lemma scrape_run (w : World) (fuel : nat) (max_pages : option Z) (s : Sys) :
  scrape w fuel max_pages s =
  match loop_end w fuel max_pages s with
  | (Some (ExceptionRaised e), s') => (Some None, handler_exit w e s')
  | (Some _, s') => (Some (Some (products (self s'))), loop_exit w s')
  | (None, s') => (None, s')
  end.
Proof.
  unfold scrape, bind, loop_end.
  cbn [update_self get_self fst snd].
  rewrite !add_status_update_run.
  match goal with
  | |- (let '(a, s') := ?c in _) = _ =>
      change c with
        (scrape_loop w fuel max_pages (Some (base_url (self s))) 1
           (loop_entry w max_pages s))
  end.
  destruct (scrape_loop w fuel max_pages (Some (base_url (self s))) 1
              (loop_entry w max_pages s)) as [[ex|] s5]; [|reflexivity].
  assert (Hnormal :
    (let '(_, s') :=
       add_status_update w
         (u "Scraping complete. Total products collected: "
            ++ len (products (self s5))) s5 in
     let '(running, s'0) := read_is_running w s' in
     let '(_, s'1) :=
       (if running then ret tt
        else add_status_update w (u "Scrape was stopped manually.")) s'0 in
     let '(_, s'2) := update_self (set_is_running false) s'1 in
     ret (Some (Some (products (self s'1)))) s'2)
    = (Some (Some (products (self s5))), loop_exit w s5)).
  { rewrite add_status_update_run. unfold loop_exit. cbv zeta.
    fold (scraping_complete (len (products (self s5)))).
    set (s6 := logged w (scraping_complete (len (products (self s5)))) s5).
    unfold live_is_running, read_is_running.
    destruct (stop_requested w (clock_ix s6)); cbn [fst snd].
    - rewrite add_status_update_run. reflexivity.
    - destruct (is_running (self s6)).
      + reflexivity.
      + rewrite add_status_update_run. reflexivity. }
  destruct ex; try exact Hnormal.
  rewrite add_status_update_run. reflexivity.
Qed.

(** X10. However its loop runs and ends, [scrape] keeps what was
    collected and logged when the loop was entered: the products and the
    log only grow, in order, and the base URL and the progress field
    stay as they are. *)
Theorem scrape_loop_monotone (w : World) (fuel : nat) (max_pages : option Z)
    (current_url : option pystr) (page_number : Z) (s : Sys) :
  let s' := snd (scrape_loop w fuel max_pages current_url page_number s) in
  products_extend s s' /\ log_extends s s' /\ keeps_settings s s'.
Proof.
  cbv zeta. split; [apply scrape_loop_products_extend|].
  split; [apply scrape_loop_log_extends|apply scrape_loop_keeps_settings].
Qed.

(** The fields after the closing entries. *)
Lemma loop_exit_self (w : World) (s : Sys) :
  is_running (self (loop_exit w s)) = false /\
  products (self (loop_exit w s)) = products (self s) /\
  base_url (self (loop_exit w s)) = base_url (self s) /\
  progress (self (loop_exit w s)) = progress (self s) /\
  status_updates (self (loop_exit w s))
  = status_updates (self s)
    ++ stamped w s 0 (scraping_complete (len (products (self s))))
    :: (if negb (stop_requested w (S (clock_ix s))) && is_running (self s)
        then []
        else [stamped w s 1 stopped_manually]).
Proof.
  unfold loop_exit, live_is_running, read_is_running. cbv zeta.
  change (clock_ix (logged w (scraping_complete (len (products (self s)))) s))
    with (S (clock_ix s)).
  change (is_running
            (self (logged w (scraping_complete (len (products (self s)))) s)))
    with (is_running (self s)).
  destruct (stop_requested w (S (clock_ix s))); cbn [negb andb fst snd].
  - repeat split. cbn. now rewrite <- app_assoc.
  - destruct (is_running (self s)); repeat split.
    cbn. now rewrite <- app_assoc.
Qed.

(** The fields after the handler. *)
Lemma handler_exit_self (w : World) (e : pystr) (s : Sys) :
  is_running (self (handler_exit w e s)) = false /\
  products (self (handler_exit w e s)) = products (self s) /\
  base_url (self (handler_exit w e s)) = base_url (self s) /\
  progress (self (handler_exit w e s)) = progress (self s) /\
  status_updates (self (handler_exit w e s))
  = status_updates (self s) ++ [stamped w s 0 (scraping_error e)].
Proof. repeat split. Qed.

(** What the prologue leaves: the two opening entries, no product, and
    a progress of 0. *)
Lemma loop_entry_self (w : World) (max_pages : option Z) (s : Sys) :
  status_updates (self (loop_entry w max_pages s))
  = [stamped w s 0 (u "Starting scrape for: " ++ base_url (self s));
     stamped w s 1
       (u "Maximum pages to scrape: " ++ max_pages_text max_pages)] /\
  products (self (loop_entry w max_pages s)) = [] /\
  base_url (self (loop_entry w max_pages s)) = base_url (self s) /\
  progress (self (loop_entry w max_pages s)) = 0%Z.
Proof. repeat split. Qed.

(** X11. When [scrape] returns, with the list or, after its handler,
    with [None], the instance is no longer running, its base URL is the
    one it had, and its [progress] field is 0: the method resets it at
    the start and never advances it.  A list that is returned is the
    [products] field of the instance, and then no exception had left
    the loop; [None] is returned when one had. *)
Theorem scrape_final_state (w : World) (fuel : nat) (max_pages : option Z)
    (s s' : Sys) (r : option (list Product)) :
  scrape w fuel max_pages s = (Some r, s') ->
  is_running (self s') = false /\
  base_url (self s') = base_url (self s) /\
  progress (self s') = 0%Z /\
  match r with
  | Some ps =>
      ps = products (self s') /\
      forall e, fst (loop_end w fuel max_pages s) <> Some (ExceptionRaised e)
  | None =>
      exists e, fst (loop_end w fuel max_pages s) = Some (ExceptionRaised e)
  end.
Proof.
  rewrite scrape_run.
  pose proof (scrape_loop_keeps_settings w fuel max_pages
                (Some (base_url (self s))) 1 (loop_entry w max_pages s))
    as [Hb Hp].
  fold (loop_end w fuel max_pages s) in Hb, Hp.
  destruct (loop_end w fuel max_pages s) as [[ex|] s5]; [|discriminate].
  cbn [fst snd] in *.
  destruct (loop_entry_self w max_pages s) as (_ & _ & Hb0 & Hp0).
  destruct (loop_exit_self w s5) as (Hr & Hps & Hbase & Hprog & _).
  destruct ex; intros H; injection H as <- <-;
    try (split; [exact Hr|];
         split; [now rewrite Hbase, Hb|];
         split; [now rewrite Hprog, Hp|];
         split; [now rewrite Hps|discriminate]).
  destruct (handler_exit_self w e s5) as (Hr' & _ & Hbase' & Hprog' & _).
  split; [exact Hr'|]. split; [now rewrite Hbase', Hb|].
  split; [now rewrite Hprog', Hp|]. now exists e.
Qed.

(** X11 on a run whose first page holds one item and a "next" link on
    which [urljoin] raises: the method returns [None], with the item
    collected. *)
Lemma scrape_final_state_witness :
  let r := scrape broken_link_world 1 None (fresh search_url) in
  r = (Some None, snd r) /\
  products (self (snd r)) = [bare_product] /\
  is_running (self (snd r)) = false /\
  base_url (self (snd r)) = base_url (self (fresh search_url)) /\
  progress (self (snd r)) = 0%Z /\
  exists e,
    fst (loop_end broken_link_world 1 None (fresh search_url))
    = Some (ExceptionRaised e).
Proof.
  cbv zeta. split; [vm_compute; reflexivity|].
  split; [vm_compute; reflexivity|].
  apply (scrape_final_state broken_link_world 1 None (fresh search_url)
           (snd (scrape broken_link_world 1 None (fresh search_url))) None).
  vm_compute. reflexivity.
Defined.

(** The same on a run that returns its list. *)
Example scrape_two_pages :
  let r := scrape endless_world 2 (Some 2%Z) (fresh search_url) in
  fst r = Some (Some [bare_product; bare_product]) /\
  products (self (snd r)) = [bare_product; bare_product] /\
  is_running (self (snd r)) = false.
Proof. cbv zeta. repeat split; vm_compute; reflexivity. Qed.

(** X12. The log of a run that returns opens with the entry naming the
    base URL and the entry naming the page limit, followed by what the
    loop wrote.  When the list is returned, the log closes with the entry
    "Scraping complete" carrying the number of products returned,
    followed by the entry about a manual stop exactly when the running
    flag, read after that entry, is found cleared: cleared by a stop
    request by then, or already cleared when the loop ended.  When
    [None] is returned, the log closes with the entry "Error during
    scraping" of the handler alone, without those entries. *)
Theorem scrape_log_shape (w : World) (fuel : nat) (max_pages : option Z)
    (s s' : Sys) (r : option (list Product)) :
  scrape w fuel max_pages s = (Some r, s') ->
  let s5 := snd (loop_end w fuel max_pages s) in
  exists mid closing,
    status_updates (self s5)
    = stamped w s 0 (u "Starting scrape for: " ++ base_url (self s))
      :: stamped w s 1
           (u "Maximum pages to scrape: " ++ max_pages_text max_pages)
      :: mid /\
    status_updates (self s') = status_updates (self s5) ++ closing /\
    match r with
    | Some ps =>
        closing
        = stamped w s5 0 (scraping_complete (len ps))
          :: (if negb (stop_requested w (S (clock_ix s5)))
                 && is_running (self s5)
              then []
              else [stamped w s5 1 stopped_manually])
    | None =>
        exists e,
          fst (loop_end w fuel max_pages s) = Some (ExceptionRaised e) /\
          closing = [stamped w s5 0 (scraping_error e)]
    end.
Proof.
  rewrite scrape_run. cbv zeta.
  pose proof (scrape_loop_log_extends w fuel max_pages
                (Some (base_url (self s))) 1 (loop_entry w max_pages s))
    as [mid Hmid].
  fold (loop_end w fuel max_pages s) in Hmid.
  destruct (loop_entry_self w max_pages s) as (Hlog0 & _).
  rewrite Hlog0 in Hmid.
  destruct (loop_end w fuel max_pages s) as [[ex|] s5]; [|discriminate].
  cbn [fst snd] in *.
  destruct (loop_exit_self w s5) as (_ & _ & _ & _ & Hlog).
  destruct ex; intros H; injection H as <- <-;
    try (exists mid; eexists; split; [exact Hmid|]; split; [exact Hlog|];
         reflexivity).
  exists mid. eexists. split; [exact Hmid|]. split; [reflexivity|].
  exists e. split; reflexivity.
Qed.

(** X12 on a run of one page during which the stop button is pressed:
    the loop ends at the page limit and the entry about the manual stop
    is written. *)
Lemma scrape_log_shape_witness :
  let w := stopping_world in
  let s := fresh search_url in
  let r := scrape w 1 (Some 1%Z) s in
  let s5 := snd (loop_end w 1 (Some 1%Z) s) in
  r = (Some (Some [bare_product]), snd r) /\
  fst (loop_end w 1 (Some 1%Z) s) = Some MaxPagesReached /\
  is_running (self s5) = true /\
  stop_requested w (S (clock_ix s5)) = true /\
  exists mid closing,
    status_updates (self s5)
    = stamped w s 0 (u "Starting scrape for: " ++ base_url (self s))
      :: stamped w s 1
           (u "Maximum pages to scrape: " ++ max_pages_text (Some 1%Z))
      :: mid /\
    status_updates (self (snd r)) = status_updates (self s5) ++ closing /\
    closing
    = stamped w s5 0 (scraping_complete (len [bare_product]))
      :: (if negb (stop_requested w (S (clock_ix s5)))
             && is_running (self s5)
          then []
          else [stamped w s5 1 stopped_manually]).
Proof.
  cbv zeta. split; [vm_compute; reflexivity|].
  split; [vm_compute; reflexivity|].
  split; [vm_compute; reflexivity|].
  split; [vm_compute; reflexivity|].
  apply (scrape_log_shape stopping_world 1 (Some 1%Z) (fresh search_url)
           (snd (scrape stopping_world 1 (Some 1%Z) (fresh search_url)))
           (Some [bare_product])).
  vm_compute. reflexivity.
Defined.

(** The last entries of three runs: stopped during the only page, run
    to the page limit undisturbed, and ended by an exception. *)
Example scrape_last_entries :
  let log w fuel max_pages :=
    status_updates (self (snd (scrape w fuel max_pages (fresh search_url)))) in
  skipn 6 (log stopping_world 1%nat (Some 1%Z))
  = [u "[12:00:00] Scraping complete. Total products collected: 1";
     u "[12:00:00] Scrape was stopped manually."] /\
  skipn 6 (log endless_world 1%nat (Some 1%Z))
  = [u "[12:00:00] Scraping complete. Total products collected: 1"] /\
  skipn 5 (log broken_link_world 1%nat None)
  = [u "[12:00:00] Error during scraping: Invalid IPv6 URL"].
Proof. cbv zeta. repeat split; vm_compute; reflexivity. Qed.

(** X13. Every product that [scrape] returns has a non-empty URL and a
    title without "Shop on eBay", whatever the instance held before. *)
Theorem scrape_products_well_formed (w : World) (fuel : nat)
    (max_pages : option Z) (s s' : Sys) (ps : list Product) :
  scrape w fuel max_pages s = (Some (Some ps), s') -> Forall well_formed ps.
Proof.
  rewrite scrape_run.
  pose proof (scrape_loop_well_formed w fuel max_pages
                (Some (base_url (self s))) 1 (loop_entry w max_pages s))
    as Hwf.
  fold (loop_end w fuel max_pages s) in Hwf.
  destruct (loop_end w fuel max_pages s) as [[ex|] s5]; [|discriminate].
  destruct ex; intros H; try discriminate;
    injection H as <- <-; apply Hwf; constructor.
Qed.

(** X13 on a run of two pages in a world where each page holds one
    item. *)
Lemma scrape_products_well_formed_witness :
  let r := scrape endless_world 2 (Some 2%Z) (fresh search_url) in
  r = (Some (Some [bare_product; bare_product]), snd r) /\
  Forall well_formed [bare_product; bare_product].
Proof.
  cbv zeta. split; [vm_compute; reflexivity|].
  apply (scrape_products_well_formed endless_world 2 (Some 2%Z)
           (fresh search_url)
           (snd (scrape endless_world 2 (Some 2%Z) (fresh search_url)))).
  vm_compute. reflexivity.
Defined.

(** ** The page limit *)

Lemma hoare_any {A} (c : M A) :
  hoare (fun _ => True) c (fun _ _ => True).
Proof. intros s _. exact I. Qed.

(** A step after which nothing is known or needed. *)
Ltac any_step := eapply hoare_bind; [apply hoare_any|intros ?].
Ltac any_step_as x := eapply hoare_bind; [apply hoare_any|intros x].

Lemma scrape_loop_terminates (w : World) (max_pages : Z) (fuel : nat) :
  (1 <= max_pages)%Z ->
  forall (current_url : option pystr) (page_number : Z),
    (Z.to_nat (max_pages - page_number) < fuel)%nat ->
    hoare (fun _ => True)
      (scrape_loop w fuel (Some max_pages) current_url page_number)
      (fun r _ => r <> None).
Proof.
  intros Hmax. induction fuel as [|fuel IH];
    intros current_url page_number Hfuel; [lia|].
  cbn [scrape_loop].
  any_step_as flag. destruct (truthy_opt current_url && flag);
    [|apply hoare_ret; intros; discriminate].
  any_step. any_step_as html_content. destruct (truthy_opt html_content).
  - any_step_as page_products.
    destruct page_products as [|p page_products].
    + any_step. apply hoare_ret; intros; discriminate.
    + any_step. any_step. any_step. any_step. any_step.
      destruct (max_pages_set (Some max_pages)
                && (max_pages <=? page_number)%Z) eqn:E.
      * any_step. apply hoare_ret; intros; discriminate.
      * any_step_as x.
        destruct (get_next_page_url w x html_content page_number)
          as [next_url|e]; [|apply hoare_ret; intros; discriminate].
        apply IH.
        cbn [max_pages_set] in E.
        destruct (Z.eqb_spec max_pages 0) as [|_]; [lia|].
        cbn [negb andb] in E. apply Z.leb_gt in E. lia.
  - any_step. apply hoare_ret; intros; discriminate.
Qed.

(** X14. With a page limit of at least one, the loop of [scrape] ends
    within that many iterations: given fuel for [max_pages] iterations,
    [scrape] returns, its list or, after its handler, [None]. *)
Theorem scrape_terminates_within_limit (w : World) (fuel : nat)
    (max_pages : Z) (s : Sys) :
  (1 <= max_pages)%Z ->
  (Z.to_nat max_pages <= fuel)%nat ->
  exists r s', scrape w fuel (Some max_pages) s = (Some r, s').
Proof.
  intros Hmax Hfuel. rewrite scrape_run.
  pose proof (scrape_loop_terminates w max_pages fuel Hmax
                (Some (base_url (self s))) 1 ltac:(lia)
                (loop_entry w (Some max_pages) s) I) as Hloop.
  fold (loop_end w fuel (Some max_pages) s) in Hloop.
  destruct (loop_end w fuel (Some max_pages) s) as [[ex|] s5].
  - destruct ex; eauto.
  - now cbn in Hloop.
Qed.

(** X14 for a limit of two pages in a world that always has a next
    page. *)
Lemma scrape_terminates_within_limit_witness :
  (1 <= 2)%Z /\ (Z.to_nat 2 <= 2)%nat /\
  exists r s', scrape endless_world 2 (Some 2%Z) (fresh search_url)
               = (Some r, s').
Proof.
  split; [lia|]. split; [cbn; lia|].
  apply (scrape_terminates_within_limit endless_world 2 2
           (fresh search_url)); [lia|cbn; lia].
Defined.

Lemma same_requests_refl (s : Sys) : same_requests s s.
Proof. reflexivity. Qed.

Lemma same_requests_trans (a b c : Sys) :
  same_requests a b -> same_requests b c -> same_requests a c.
Proof. unfold same_requests. congruence. Qed.

Lemma add_status_update_same_requests (w : World) (message : pystr) :
  relates same_requests (add_status_update w message).
Proof.
  apply relates_add_status_update;
    [exact same_requests_trans|..]; same_step.
Qed.

Lemma parse_product_listings_same_requests (w : World)
    (html : option pystr) :
  relates same_requests (parse_product_listings w html).
Proof. intros s. apply parse_product_listings_offline. Qed.

Lemma requests_stable (r : nat) (s s' : Sys) :
  same_requests s s' -> (request_ix s <= r)%nat -> (request_ix s' <= r)%nat.
Proof. unfold same_requests. intros ->. auto. Qed.

(** One step that issues no request. *)
Ltac no_request_step_as x :=
  eapply hoare_bind;
  [ apply (hoare_relates same_requests);
    [ first [ apply add_status_update_same_requests
            | apply parse_product_listings_same_requests
            | intros s; apply read_is_running_counters
            | solve [same_step] ]
    | apply requests_stable ]
  | intros x ].

Ltac no_request_step := let x := fresh "x" in no_request_step_as x.

Lemma scrape_loop_requests (w : World) (max_pages : Z) (fuel : nat) :
  max_pages <> 0%Z ->
  forall (current_url : option pystr) (page_number : Z) (r : nat),
    hoare (fun s => (request_ix s <= r)%nat)
      (scrape_loop w fuel (Some max_pages) current_url page_number)
      (fun _ s =>
         (request_ix s <= r + 3 * pages_left max_pages page_number)%nat).
Proof.
  intros Hmax. induction fuel as [|fuel IH];
    intros current_url page_number r; cbn [scrape_loop].
  { apply hoare_ret. intros; lia. }
  assert (Hleft : (1 <= pages_left max_pages page_number)%nat)
    by (unfold pages_left; lia).
  no_request_step_as flag.
  destruct (truthy_opt current_url && flag);
    [|apply hoare_ret; intros; cbv beta in *; lia].
  no_request_step.
  eapply hoare_bind with
    (Q1 := fun _ s => (request_ix s <= r + 3)%nat).
  { intros s Hs.
    destruct (get_page_run w
                (match current_url with Some url => url | None => [] end) s)
      as (_ & -> & _). cbv beta in *. lia. }
  intros html_content.
  destruct (truthy_opt html_content).
  - no_request_step_as page_products.
    destruct page_products as [|p page_products].
    + no_request_step. apply hoare_ret. intros; cbv beta in *; lia.
    + do 5 no_request_step.
      destruct (max_pages_set (Some max_pages)
                && (max_pages <=? page_number)%Z) eqn:E.
      * no_request_step. apply hoare_ret. intros; cbv beta in *; lia.
      * no_request_step_as x'.
        destruct (get_next_page_url w x' html_content page_number)
          as [next_url|e]; [|apply hoare_ret; intros; cbv beta in *; lia].
        eapply hoare_weaken; [apply (IH _ _ (r + 3)%nat)| |].
        -- intros s Hs. exact Hs.
        -- intros ? s Hs. cbv beta in *.
           cbn [max_pages_set] in E.
           destruct (Z.eqb_spec max_pages 0) as [|_]; [contradiction|].
           cbn [negb andb] in E. apply Z.leb_gt in E.
           unfold pages_left in *. lia.
  - no_request_step. apply hoare_ret. intros; cbv beta in *; lia.
Qed.

(** Neither epilogue issues a request. *)
Lemma loop_exit_requests (w : World) (s : Sys) :
  request_ix (loop_exit w s) = request_ix s.
Proof.
  unfold loop_exit, live_is_running, read_is_running. cbv zeta.
  destruct (stop_requested w _); [reflexivity|].
  destruct (is_running _); reflexivity.
Qed.

Lemma handler_exit_requests (w : World) (e : pystr) (s : Sys) :
  request_ix (handler_exit w e s) = request_ix s.
Proof. reflexivity. Qed.

(** X15. With a page limit of at least one, a run of [scrape] issues at
    most three requests for each page of the limit. *)
Theorem scrape_request_bound (w : World) (fuel : nat) (max_pages : Z)
    (s : Sys) :
  (1 <= max_pages)%Z ->
  (request_ix (snd (scrape w fuel (Some max_pages) s))
   <= request_ix s + 3 * Z.to_nat max_pages)%nat.
Proof.
  intros Hmax. rewrite scrape_run.
  pose proof (scrape_loop_requests w max_pages fuel ltac:(lia)
                (Some (base_url (self s))) 1 (request_ix s)
                (loop_entry w (Some max_pages) s) (Nat.le_refl _)) as Hloop.
  fold (loop_end w fuel (Some max_pages) s) in Hloop.
  destruct (loop_end w fuel (Some max_pages) s) as [[ex|] s5];
    cbn [snd] in *; unfold pages_left in Hloop.
  - destruct ex; cbn [snd];
      rewrite ?loop_exit_requests, ?handler_exit_requests; lia.
  - lia.
Qed.

(** X15 for a limit of three pages in a world where every request
    fails. *)
Lemma scrape_request_bound_witness :
  (1 <= 3)%Z /\
  (request_ix (snd (scrape failing_world 5 (Some 3%Z) (fresh search_url)))
   <= request_ix (fresh search_url) + 3 * Z.to_nat 3)%nat.
Proof.
  split; [lia|].
  apply (scrape_request_bound failing_world 5 3 (fresh search_url)). lia.
Defined.

(** ** A crawl without page limit *)

Lemma contains_truthy (p s : pystr) :
  contains p s = true -> truthy p = true -> truthy s = true.
Proof.
  destruct s as [|c s]; [|reflexivity].
  destruct p; [discriminate|]. cbn. discriminate.
Qed.

Lemma get_next_page_url_productive (w : World) (x : Scraper) (body : pystr)
    (n : Z) :
  (forall base target, exists r,
      urljoin w base target = Returned r /\ truthy r = true) ->
  contains (u "?") (base_url x) = true ->
  truthy body = true ->
  exists r,
    get_next_page_url w x (Some body) n = Returned (Some r) /\
    truthy r = true.
Proof.
  intros Hjoin Hq Hbody.
  destruct (next_from_query_has_page (base_url x) n Hq) as (r & Hr & Hc).
  assert (Hfallback :
    exists r', Returned (next_from_query (base_url x) n)
               = Returned (Some r') /\ truthy r' = true).
  { exists r. rewrite Hr. split; [reflexivity|].
    now apply (contains_truthy (u "_pgn=")). }
  unfold get_next_page_url, next_from_pagination. rewrite Hbody.
  destruct (pagination_items (BeautifulSoup w body)); [exact Hfallback|].
  destruct (pagination_next (BeautifulSoup w body)) as [nb|];
    [|exact Hfallback].
  destruct (attr (u "href") nb) as [href|]; [|exact Hfallback].
  destruct (Hjoin (base_url x) href) as (url & -> & Hurl).
  exists url. now split.
Qed.

Lemma parse_product_listings_nonempty (w : World) (body : pystr) (s : Sys) :
  truthy body = true ->
  kept_urls (s_items (BeautifulSoup w body)) <> [] ->
  fst (parse_product_listings w (Some body) s) <> [].
Proof.
  intros Hbody Hkept H. cbn [parse_product_listings] in H.
  rewrite Hbody in H.
  pose proof (parse_containers_urls w (s_items (BeautifulSoup w body)) [] s)
    as Hurls.
  rewrite H in Hurls. cbn in Hurls. apply Hkept. now symmetry.
Qed.

Lemma scrape_loop_endless (w : World) :
  productive w ->
  forall (fuel : nat) (url : pystr) (page_number : Z) (s : Sys),
    truthy url = true ->
    is_running (self s) = true ->
    contains (u "?") (base_url (self s)) = true ->
    fst (scrape_loop w fuel None (Some url) page_number s) = None.
Proof.
  intros (Hstop & Hjoin & Hhttp).
  induction fuel as [|fuel IH]; intros url page_number s Hurl Hrun Hq;
    [reflexivity|].
  cbn [scrape_loop]. unfold bind at 1. unfold read_is_running.
  rewrite Hstop, Hrun. cbn [truthy_opt]. rewrite Hurl. cbn [andb].
  unfold bind at 1. rewrite add_status_update_run. unfold bind at 1.
  set (s1 := logged w _ s).
  destruct (Hhttp (request_ix s1) url) as (body & Hget & Hbody & Hkept).
  pose proof (get_page_run w url s1) as Hfst. cbv zeta in Hfst.
  destruct Hfst as (Hfst & _).
  cbn [first_fetched] in Hfst. rewrite Hget in Hfst.
  pose proof (get_page_only_log_changes w url s1) as (_ & Hb2 & Hr2 & _).
  destruct (get_page w url s1) as [html s2]. cbn [fst snd] in *. subst html.
  cbn [truthy_opt]. rewrite Hbody. unfold bind at 1.
  pose proof (parse_product_listings_nonempty w body s2 Hbody Hkept) as Hne.
  pose proof (parse_product_listings_only_log_changes w (Some body) s2)
    as (_ & Hb3 & Hr3 & _).
  destruct (parse_product_listings w (Some body) s2) as [[|p ps] s3];
    cbn [fst snd] in *; [congruence|].
  unfold bind at 1. cbn [update_self].
  unfold bind at 1. cbn [get_self].
  unfold bind at 1. rewrite add_status_update_run.
  unfold bind at 1. cbn [uniform].
  unfold bind at 1. rewrite add_status_update_run.
  cbn [max_pages_set andb].
  unfold bind at 1. cbn [get_self].
  match goal with
  | |- fst (match get_next_page_url _ ?x _ _ with
            | Returned _ => _
            | Raised _ => _
            end ?sN) = None =>
      assert (HrN : is_running (self sN) = true)
        by (cbn; rewrite Hr3, Hr2; exact Hrun);
      assert (HqN : contains (u "?") (base_url (self sN)) = true)
        by (cbn; rewrite Hb3, Hb2; exact Hq);
      destruct (get_next_page_url_productive w x body page_number Hjoin
                  HqN Hbody) as (r & -> & Hr);
      now apply IH
  end.
Qed.

(** X16. Without a page limit, in a world where nobody asks to stop,
    every request returns a non-empty page with a product to keep and
    [urljoin] always returns a URL that is not empty, the loop of
    [scrape] does not end for a scraper whose base URL has a query
    string, as the constructor makes it: whatever the number of
    iterations allowed, the run is still going. *)
Theorem scrape_unbounded_without_limit (w : World) (fuel : nat) (s : Sys) :
  productive w ->
  contains (u "?") (base_url (self s)) = true ->
  fst (scrape w fuel None s) = None.
Proof.
  intros Hw Hq. rewrite scrape_run.
  pose proof (scrape_loop_endless w Hw fuel (base_url (self s)) 1
                (loop_entry w None s)
                (contains_truthy (u "?") _ Hq eq_refl) eq_refl Hq) as Hloop.
  fold (loop_end w fuel None s) in Hloop.
  destruct (loop_end w fuel None s) as [[ex|] s5];
    [discriminate|reflexivity].
Qed.

Lemma endless_world_productive : productive endless_world.
Proof.
  split; [reflexivity|].
  split; [intros base target; eexists; split; reflexivity|].
  intros k url. exists some_page. repeat split. discriminate.
Qed.

(** X16 for a freshly constructed scraper and fifty iterations. *)
Lemma scrape_unbounded_without_limit_witness :
  productive endless_world /\
  contains (u "?") (base_url (self (fresh search_url))) = true /\
  fst (scrape endless_world 50 None (fresh search_url)) = None.
Proof.
  split; [exact endless_world_productive|]. split; [reflexivity|].
  apply (scrape_unbounded_without_limit endless_world 50 (fresh search_url));
    [exact endless_world_productive|reflexivity].
Defined.

(** X17. [scrape] starts from scratch: its result and the state it
    leaves depend on the base URL of the instance and on the outside
    world only, not on the products, the log, the running flag or the
    progress the instance held before. *)
Theorem scrape_starts_afresh (w : World) (fuel : nat) (max_pages : option Z)
    (s1 s2 : Sys) :
  base_url (self s1) = base_url (self s2) ->
  clock_ix s1 = clock_ix s2 ->
  request_ix s1 = request_ix s2 ->
  random_ix s1 = random_ix s2 ->
  scrape w fuel max_pages s1 = scrape w fuel max_pages s2.
Proof.
  intros Hb Hc Hr Hn. rewrite !scrape_run. unfold loop_end.
  assert (He : loop_entry w max_pages s1 = loop_entry w max_pages s2).
  { destruct s1 as [[b1 p1 l1 r1 g1] c1 q1 n1].
    destruct s2 as [[b2 p2 l2 r2 g2] c2 q2 n2].
    cbn in Hb, Hc, Hr, Hn. subst. reflexivity. }
  now rewrite He, Hb.
Qed.

(** X17 for a fresh scraper and one that holds a product from an
    earlier run. *)
Lemma scrape_starts_afresh_witness :
  let s1 := fresh search_url in
  let s2 := {| self := set_products [a_product] (init search_url);
               clock_ix := 0; request_ix := 0; random_ix := 0 |} in
  base_url (self s1) = base_url (self s2) /\
  clock_ix s1 = clock_ix s2 /\
  request_ix s1 = request_ix s2 /\
  random_ix s1 = random_ix s2 /\
  scrape failing_world 1 None s1 = scrape failing_world 1 None s2.
Proof.
  cbv zeta. split; [reflexivity|]. split; [reflexivity|].
  split; [reflexivity|]. split; [reflexivity|].
  apply (scrape_starts_afresh failing_world 1 None); reflexivity.
Defined.

(** ** The image scan and the spellings of the Taiwan dollar *)

(** X18. The last-resort scan over the images of a container returns
    the [src] of the first image whose [src] does not end in "gif" and
    contains "https://", and nothing when no image qualifies. *)
Theorem first_https_img_first_accepted (imgs : list Tag) :
  match first_https_img imgs with
  | Some v =>
      exists before img after,
        imgs = before ++ img :: after /\
        forallb (fun t => negb (scan_accepts t)) before = true /\
        scan_accepts img = true /\ attr (u "src") img = Some v
  | None => forallb (fun t => negb (scan_accepts t)) imgs = true
  end.
Proof.
  induction imgs as [|img rest IH]; [reflexivity|].
  cbn [first_https_img].
  destruct (attr (u "src") img) as [v|] eqn:Hsrc.
  - destruct (negb (endswith (u "gif") v) && contains (u "https://") v)
      eqn:Hok.
    + exists [], img, rest. unfold scan_accepts. rewrite Hsrc, Hok.
      repeat split.
    + assert (Hno : scan_accepts img = false)
        by (unfold scan_accepts; now rewrite Hsrc).
      destruct (first_https_img rest) as [v'|].
      * destruct IH as (before & img' & after & -> & Hb & Ha & Hv).
        exists (img :: before), img', after.
        cbn [forallb app]. rewrite Hno, Hb. repeat split; assumption.
      * cbn [forallb]. now rewrite Hno, IH.
  - assert (Hno : scan_accepts img = false)
      by (unfold scan_accepts; now rewrite Hsrc).
    destruct (first_https_img rest) as [v'|].
    + destruct IH as (before & img' & after & -> & Hb & Ha & Hv).
      exists (img :: before), img', after.
      cbn [forallb app]. rewrite Hno, Hb. repeat split; assumption.
    + cbn [forallb]. now rewrite Hno, IH.
Qed.

(** A replacement either changes nothing or leaves the new text in the
    result. *)
Lemma replace_unchanged_or_new (old new s : pystr) :
  replace old new s = s \/ contains new (replace old new s) = true.
Proof.
  unfold replace. induction s as [|c s IH]; [now left|].
  cbn [replace_from]. destruct (startswith old (c :: s)).
  - right. apply contains_prefix.
  - destruct IH as [-> | IH]; [now left|right]. now apply contains_cons.
Qed.

(** An occurrence of the old text makes the new text appear. *)
Lemma replace_occurrence (old new s : pystr) :
  contains old s = true -> truthy old = true ->
  contains new (replace old new s) = true.
Proof.
  intros H Hold. unfold replace. induction s as [|c s IH].
  - destruct old; [discriminate|]. cbn in H. discriminate.
  - cbn [replace_from]. destruct (startswith old (c :: s)) eqn:E.
    + apply contains_prefix.
    + cbn [contains] in H. rewrite E in H. cbn [orb] in H.
      apply contains_cons. now apply IH.
Qed.

(** X19. The spellings ["NT $"] and ["nt$"] of the Taiwan dollar are
    coalesced: when the price text contains one of them, or [NT$]
    itself, the text after the detection contains the symbol [NT$] of
    the exchange-rate table. *)
Theorem normalize_nt_coalesces (price : pystr) :
  contains (u "NT$") price
  || contains (u "NT $") price || contains (u "nt$") price = true ->
  contains (u "NT$") (normalize_nt price) = true.
Proof.
  intros H. unfold normalize_nt.
  destruct (contains (u "NT$") price) eqn:Hnt; [exact Hnt|].
  cbn [negb andb orb] in *.
  set (r1 := replace (u "NT $") (u "NT$") price).
  set (r2 := replace (u "nt$") (u "NT$") r1).
  assert (H2 : contains (u "NT$") r2 = true).
  { destruct (contains (u "NT $") price) eqn:Hsp.
    - assert (H1 : contains (u "NT$") r1 = true)
        by (apply replace_occurrence; [exact Hsp|reflexivity]).
      destruct (replace_unchanged_or_new (u "nt$") (u "NT$") r1)
        as [E | E]; [|exact E].
      unfold r2. now rewrite E.
    - cbn [orb] in H.
      destruct (replace_unchanged_or_new (u "NT $") (u "NT$") price)
        as [E | E].
      + apply replace_occurrence; [|reflexivity].
        unfold r1. now rewrite E.
      + destruct (replace_unchanged_or_new (u "nt$") (u "NT$") r1)
          as [E' | E']; [|exact E'].
        unfold r2. now rewrite E'. }
  destruct (contains (u "NT $") price || contains (u "nt$") price
            || contains (u "NT") price) eqn:Hany.
  - rewrite H2, andb_false_r. exact H2.
  - rewrite H in Hany. discriminate.
Qed.

(** X19 at a price spelt with a space. *)
Lemma normalize_nt_coalesces_witness :
  contains (u "NT$") (u "NT $1,200")
  || contains (u "NT $") (u "NT $1,200")
  || contains (u "nt$") (u "NT $1,200") = true /\
  contains (u "NT$") (normalize_nt (u "NT $1,200")) = true.
Proof.
  split; [vm_compute; reflexivity|].
  apply (normalize_nt_coalesces (u "NT $1,200")). vm_compute. reflexivity.
Defined.
